(** * http_server.cpp: the pipelining test server

    A shallow embedding of [src/http_server.cpp]: the boundary matcher
    ([class parser]), the header extractor ([class header]), the delayed
    reply ([class Reply]), the connection actor ([class tcp_connection])
    and the listener ([class tcp_server], [main]).

    Conventions.
    - A [char] is an [ascii]; a [std::string] and a read buffer are
      [list ascii].
    - [unsigned long] is 64 bits wide (LP64) and is kept as a [Z] in
      [0, ULONG_MAX]; [int] is 32 bits wide and is kept as a [Z] with the
      wrap-around of [++] written out ([int_wrap]).
    - Logging to [std::cout] changes no state of the program and is left out.
    - [boost::asio::async_write] is modelled by appending the bytes to the
      connection's output log at the moment the write is started. *)

From Stdlib Require Import String Ascii List ZArith Bool Lia Arith.
Import ListNotations.
Local Open Scope Z_scope.

(** ** Bytes and strings *)

Definition bytes := list ascii.

Definition CR : ascii := Ascii.ascii_of_nat 13.
Definition LF : ascii := Ascii.ascii_of_nat 10.
Definition NUL : ascii := Ascii.zero.
Definition CRLF : bytes := [CR; LF].

(** A string literal of the source. *)
Definition lit (s : string) : bytes := list_ascii_of_string s.

Definition nonempty_bytes (s : bytes) : bool :=
  match s with [] => false | _ :: _ => true end.

Definition bytes_eqb (a b : bytes) : bool :=
  if list_eq_dec ascii_dec a b then true else false.

(** ** Machine integers *)

Definition INT_MAX : Z := 2147483647.
Definition INT_MIN : Z := -2147483648.
Definition ULONG_MAX : Z := 18446744073709551615.

(** The value an [int] holds after an arithmetic result [z]. *)
Definition int_wrap (z : Z) : Z := (z - INT_MIN) mod 2 ^ 32 + INT_MIN.

(** Conversion of a mathematical value to [unsigned long]. *)
Definition ulong_wrap (z : Z) : Z := z mod 2 ^ 64.

(** ** Boundary matcher: [class parser] *)

Module parser.

Record t := mk {
  m_str : bytes;
  m_match : bool;
  m_ptr : nat            (* offset of the iterator from m_str.begin() *)
}.

(** [void reset(void) { m_match = false; m_ptr = m_str.begin(); }] *)
Definition reset (p : t) : t := mk (m_str p) false 0.

(** [parser(std::string const& str) : m_str(str) { reset(); }] *)
Definition create (str : bytes) : t := reset (mk str false 0).

(** [operator bool] *)
Definition matched (p : t) : bool := m_match p.

(** [*m_ptr]; at [m_str.end()] the read yields the terminator of the
    string. *)
Definition deref (p : t) : ascii := nth (m_ptr p) (m_str p) NUL.

(** [void parser::feed(char c)] *)
Definition feed (p : t) (c : ascii) : t :=
  if negb (Ascii.eqb c (deref p)) then reset p
  else mk (m_str p) (Nat.eqb (S (m_ptr p)) (length (m_str p))) (S (m_ptr p)).

Definition feed_all (p : t) (s : bytes) : t := fold_left feed s p.

End parser.

(** ** Header extractor: [class header] *)

Module header.

Inductive state_type :=
  s_begin | s_key | s_colon | s_value | s_carriage_return | s_matched.

Record t := mk {
  m_key : bytes;
  m_value : bytes;
  m_state : state_type;
  m_error : bool
}.

(** [void reset(void)] *)
Definition reset (h : t) : t := mk [] [] s_begin false.

(** [header(void) { reset(); }] *)
Definition create : t := mk [] [] s_begin false.

(** [operator bool] *)
Definition matched (h : t) : bool :=
  match m_state h with s_matched => true | _ => false end.

Definition key (h : t) : bytes := m_key h.
Definition value (h : t) : bytes := m_value h.

Definition set_state (h : t) (s : state_type) : t :=
  mk (m_key h) (m_value h) s (m_error h).
Definition set_error (h : t) : t :=
  mk (m_key h) (m_value h) (m_state h) true.
Definition push_key (h : t) (c : ascii) : t :=
  mk (m_key h ++ [c]) (m_value h) (m_state h) (m_error h).
Definition push_value (h : t) (c : ascii) : t :=
  mk (m_key h) (m_value h ++ [c]) (m_state h) (m_error h).

(** The statement after the [switch]: [if (c == '\n') reset();] *)
Definition after_switch (h : t) (c : ascii) : t :=
  if Ascii.eqb c LF then reset h else h.

(** [void header::feed(char c)] *)
Definition feed (h0 : t) (c : ascii) : t :=
  let h := if matched h0 then reset h0 else h0 in
  match m_state h with
  | s_key =>
      if Ascii.eqb c ":" then after_switch (set_state h s_colon) c
      else (* fall-through *) after_switch (set_state (push_key h c) s_key) c
  | s_begin => after_switch (set_state (push_key h c) s_key) c
  | s_colon =>
      if Ascii.eqb c " " then after_switch (set_state h s_value) c
      else after_switch (set_error h) c
  | s_value =>
      if Ascii.eqb c CR then after_switch (set_state h s_carriage_return) c
      else after_switch (push_value h c) c
  | s_carriage_return =>
      if Ascii.eqb c LF then
        if negb (m_error h) then set_state h s_matched   (* return *)
        else after_switch (reset h) c
      else after_switch (set_error h) c
  | s_matched => after_switch h c
  end.

Definition feed_all (h : t) (s : bytes) : t := fold_left feed s h.

End header.

(** ** The C library: [snprintf] and [strtoul] *)

Definition digit_char (d : Z) : ascii := ascii_of_nat (48 + Z.to_nat d).

(** Decimal digits of [n], most significant first, in front of [acc]. *)
Fixpoint digits_of (fuel : nat) (n : Z) (acc : bytes) : bytes :=
  match fuel with
  | O => acc
  | S f =>
      let acc' := digit_char (n mod 10) :: acc in
      if n / 10 =? 0 then acc' else digits_of f (n / 10) acc'
  end.

(** [%lu]: at most 20 digits are needed for an [unsigned long]. *)
Definition print_ulong (n : Z) : bytes := digits_of 20 n [].

(** [%d] *)
Definition print_int (z : Z) : bytes :=
  if z <? 0 then "-"%char :: digits_of 20 (- z) [] else digits_of 20 z [].

Inductive arg :=
| A_int (z : Z)
| A_ulong (z : Z)
| A_str (s : bytes).

Inductive fmt_mode := f_text | f_percent | f_percent_l.

(** The conversions the source uses: [%d], [%lu] and [%s]. A directive
    without a matching argument ends the output. *)
Fixpoint format (m : fmt_mode) (fmt : bytes) (args : list arg) : bytes :=
  match fmt with
  | [] => []
  | c :: rest =>
      match m with
      | f_text =>
          if Ascii.eqb c "%" then format f_percent rest args
          else c :: format f_text rest args
      | f_percent =>
          if Ascii.eqb c "d" then
            match args with
            | A_int z :: args' => print_int z ++ format f_text rest args'
            | _ => []
            end
          else if Ascii.eqb c "s" then
            match args with
            | A_str s :: args' => s ++ format f_text rest args'
            | _ => []
            end
          else if Ascii.eqb c "l" then format f_percent_l rest args
          else []
      | f_percent_l =>
          if Ascii.eqb c "u" then
            match args with
            | A_ulong z :: args' => print_ulong z ++ format f_text rest args'
            | _ => []
            end
          else []
      end
  end.

(** The text [snprintf] produces; its return value is the length of this
    text, and the buffer holds all of it when that length is below the
    buffer size. *)
Definition snprintf (fmt : bytes) (args : list arg) : bytes :=
  format f_text fmt args.

Definition isspace (c : ascii) : bool :=
  let n := nat_of_ascii c in
  (Nat.eqb n 32 || (Nat.leb 9 n && Nat.leb n 13))%bool.

Definition isdigit (c : ascii) : bool :=
  let n := nat_of_ascii c in (Nat.leb 48 n && Nat.leb n 57)%bool.

Definition digit_val (c : ascii) : Z := Z.of_nat (nat_of_ascii c - 48).

Fixpoint skip_space (s : bytes) : bytes :=
  match s with
  | c :: t => if isspace c then skip_space t else s
  | [] => []
  end.

(** The digits at the front of [s]: their value on top of [acc], and whether
    there was any. *)
Fixpoint read_digits (s : bytes) (acc : Z) (any : bool) : Z * bool :=
  match s with
  | c :: t =>
      if isdigit c then read_digits t (acc * 10 + digit_val c) true
      else (acc, any)
  | [] => (acc, any)
  end.

(** [strtoul(s, NULL, 10)] on the bytes of a C string: white space, an
    optional sign, decimal digits. No digits: 0. A value that does not fit:
    [ULONG_MAX]. A minus sign: the value negated as an [unsigned long]. *)
Definition strtoul (s : bytes) : Z :=
  let s1 := skip_space s in
  let '(neg, s2) :=
    match s1 with
    | c :: t =>
        if Ascii.eqb c "-" then (true, t)
        else if Ascii.eqb c "+" then (false, t)
        else (false, s1)
    | [] => (false, s1)
    end in
  let '(v, any) := read_digits s2 0 false in
  if negb any then 0
  else if ULONG_MAX <? v then ULONG_MAX
  else if neg then ulong_wrap (- v) else v.

(** ** The reply text *)

(** [char const* const reply] *)
Definition reply : bytes :=
  lit "HTTP/1.1 200 OK" ++ CRLF ++
  lit "Keep-Alive: timeout=10 max=400" ++ CRLF ++
  lit "Content-Length: %lu" ++ CRLF ++
  lit "Content-Type: text/html" ++ CRLF ++
  lit "X-Connection: %d" ++ CRLF ++
  lit "X-Request: %lu" ++ CRLF ++
  lit "X-Reply: %d" ++ CRLF ++
  CRLF ++
  lit "<html><body>%s</body></html>" ++ [LF].

(** The first [snprintf] of [queue_reply]. *)
Definition body_text (m_reply m_instance m_request : Z) : bytes :=
  snprintf (lit "Reply %d on connection %d for request #%lu")
    [A_int m_reply; A_int m_instance; A_ulong m_request].

(** The second [snprintf] of [queue_reply]; [strlen(body)] is the length of
    [body], which holds no NUL. *)
Definition reply_text (m_instance m_request m_reply : Z) : bytes :=
  let body := body_text m_reply m_instance m_request in
  snprintf reply
    [A_ulong (ulong_wrap (Z.of_nat (length body) + 27)); A_int m_instance;
     A_ulong m_request; A_int m_reply; A_str body].

(** ** Delayed reply: [class Reply] *)

Module Reply.

(** [m_timer] is armed exactly while [m_sleep] is not 0; [m_connection]
    is the connection whose queue holds the reply. *)
Record t := mk {
  m_str : bytes;
  m_sleep : Z
}.

Definition create (s : bytes) : t := mk s 0.

Definition is_sleeping (r : t) : bool := negb (m_sleep r =? 0).

Definition wakeup (r : t) : t :=
  if is_sleeping r then mk (m_str r) 0 else r.

(** [void Reply::set_sleeping(unsigned long sleep)] *)
Definition set_sleeping (r : t) (sleep : Z) : t :=
  if 0 <? sleep then mk (m_str r) sleep else wakeup r.

Definition str (r : t) : bytes := m_str r.

End Reply.

(** ** Sockets and completion codes *)

(** A [boost::system::error_code]: 0 is success. *)
Definition error_code := Z.
Definition success : error_code := 0.
(** [boost::asio::error::operation_aborted] ([ECANCELED]). *)
Definition operation_aborted : error_code := 125.

Definition failed (e : error_code) : bool := negb (e =? 0).

Module socket.

Record t := mk {
  is_open : bool;
  reading : bool;         (* an async_read_some is outstanding *)
  written : list bytes    (* the buffers given to async_write, in order *)
}.

Definition create : t := mk false false [].
Definition accepted (s : t) : t := mk true (reading s) (written s).
Definition async_read_some (s : t) : t := mk (is_open s) true (written s).
Definition read_done (s : t) : t := mk (is_open s) false (written s).
Definition async_write (s : t) (b : bytes) : t :=
  mk (is_open s) (reading s) (written s ++ [b]).
Definition close (s : t) : t := mk false false (written s).

End socket.

(** ** Connection actor: [class tcp_connection] *)

Module tcp_connection.

Record t := mk {
  m_instance : Z;
  m_reply : Z;
  m_closed : bool;
  m_socket : socket.t;
  m_eom : parser.t;
  m_header : header.t;
  m_sleep : Z;
  m_request : Z;
  m_reply_queue : list Reply.t
}.

Definition set_socket (c : t) (s : socket.t) : t :=
  mk (m_instance c) (m_reply c) (m_closed c) s (m_eom c) (m_header c)
     (m_sleep c) (m_request c) (m_reply_queue c).
Definition set_parsers (c : t) (e : parser.t) (h : header.t) : t :=
  mk (m_instance c) (m_reply c) (m_closed c) (m_socket c) e h
     (m_sleep c) (m_request c) (m_reply_queue c).
Definition set_sleep (c : t) (z : Z) : t :=
  mk (m_instance c) (m_reply c) (m_closed c) (m_socket c) (m_eom c)
     (m_header c) z (m_request c) (m_reply_queue c).
Definition set_request (c : t) (z : Z) : t :=
  mk (m_instance c) (m_reply c) (m_closed c) (m_socket c) (m_eom c)
     (m_header c) (m_sleep c) z (m_reply_queue c).
Definition set_reply (c : t) (z : Z) : t :=
  mk (m_instance c) z (m_closed c) (m_socket c) (m_eom c)
     (m_header c) (m_sleep c) (m_request c) (m_reply_queue c).
Definition set_queue (c : t) (q : list Reply.t) : t :=
  mk (m_instance c) (m_reply c) (m_closed c) (m_socket c) (m_eom c)
     (m_header c) (m_sleep c) (m_request c) q.
Definition set_closed (c : t) (b : bool) : t :=
  mk (m_instance c) (m_reply c) b (m_socket c) (m_eom c)
     (m_header c) (m_sleep c) (m_request c) (m_reply_queue c).

(** The constructor, through [create(io_service, instance)]. *)
Definition create (instance : Z) : t :=
  mk instance 0 false socket.create (parser.create (CRLF ++ CRLF))
     header.create 0 0 [].

(** [async_accept] completed on [socket()]. *)
Definition accept (c : t) : t :=
  set_socket c (socket.accepted (m_socket c)).

(** [void start()] *)
Definition start (c : t) : t :=
  set_socket c (socket.async_read_some (m_socket c)).

(** The [while] loop of [process_replies]: write and pop the front while
    it is not sleeping. *)
Fixpoint flush (q : list Reply.t) (s : socket.t) : list Reply.t * socket.t :=
  match q with
  | [] => ([], s)
  | r :: q' =>
      if Reply.is_sleeping r then (q, s)
      else flush q' (socket.async_write s (Reply.str r))
  end.

(** [void process_replies(void)] *)
Definition process_replies (c : t) : t :=
  if m_closed c then c
  else
    match m_reply_queue c with
    | [] => c
    | _ :: _ =>
        let '(q, s) := flush (m_reply_queue c) (m_socket c) in
        set_socket (set_queue c q) s
    end.

(** [rp->set_sleeping(m_sleep)] on [m_reply_queue.back()]. *)
Fixpoint set_sleeping_back (q : list Reply.t) (sleep : Z) : list Reply.t :=
  match q with
  | [] => []
  | [r] => [Reply.set_sleeping r sleep]
  | r :: q' => r :: set_sleeping_back q' sleep
  end.

(** [void queue_reply(void)]. Both assertions hold whatever the values
    are, see [queue_reply_assertions]. *)
Definition queue_reply (c : t) : t :=
  let c := set_reply c (int_wrap (m_reply c + 1)) in
  let buf := reply_text (m_instance c) (m_request c) (m_reply c) in
  let c := set_request c 0 in
  let c := set_queue c (m_reply_queue c ++ [Reply.create buf]) in
  let c :=
    if negb (m_sleep c =? 0)
    then set_queue c (set_sleeping_back (m_reply_queue c) (m_sleep c))
    else c in
  process_replies c.

(** The body of the [for] loop of [handle_read], for the byte [p]. *)
Definition feed_byte (c : t) (p : ascii) : t :=
  let c := set_parsers c (parser.feed (m_eom c) p)
                         (header.feed (m_header c) p) in
  if parser.matched (m_eom c) then
    let c := set_parsers c (parser.reset (m_eom c))
                           (header.reset (m_header c)) in
    let c := queue_reply c in
    set_sleep c 0
  else if header.matched (m_header c) then
    if bytes_eqb (header.key (m_header c)) (lit "X-Sleep") then
      set_sleep c (strtoul (header.value (m_header c)))
    else if bytes_eqb (header.key (m_header c)) (lit "X-Request") then
      set_request c (strtoul (header.value (m_header c)))
    else c
  else c.

Definition feed_bytes (c : t) (data : bytes) : t := fold_left feed_byte data c.

(** [void handle_read(error_code const& e, size_t bytes_transferred)];
    [data] is the first [bytes_transferred] bytes of [m_buffer]. The read
    that completes is no longer outstanding. *)
Definition handle_read (c : t) (e : error_code) (data : bytes) : t :=
  let c := set_socket c (socket.read_done (m_socket c)) in
  if negb (failed e) then
    let c := feed_bytes c data in
    set_socket c (socket.async_read_some (m_socket c))
  else if negb (e =? operation_aborted) then
    let c := set_queue c [] in
    let c := set_socket c (socket.close (m_socket c)) in
    set_closed c true
  else c.

(** [void handle_write(...)]: logs only. *)
Definition handle_write (c : t) (e : error_code) (n : nat) : t := c.

(** [m_sleep = 0] on the reply at position [i] of the queue. *)
Fixpoint awake_at (q : list Reply.t) (i : nat) : list Reply.t :=
  match q, i with
  | [], _ => []
  | r :: q', O => Reply.mk (Reply.m_str r) 0 :: q'
  | r :: q', S i' => r :: awake_at q' i'
  end.

(** [void Reply::timed_out(error_code const& error)] for the timer of the
    reply at position [i] of this connection's queue. With an error nothing
    is touched. Without one, [m_sleep = 0] wakes the reply and
    [m_connection->process_replies()] runs. A reply that is queued and
    awake has no timer that could fire. A position past the end of the
    queue stands for a reply that is no longer queued: [async_wait] binds
    the raw [this], and a completion that was already queued when
    [m_reply_queue.clear()] destroyed the reply is still delivered, without
    an error; its [m_sleep = 0] then falls on a reply that is no part of
    the queue, and [process_replies] runs on the connection all the same. *)
Definition timed_out (c : t) (i : nat) (error : error_code) : option t :=
  if negb (failed error) then
    match nth_error (m_reply_queue c) i with
    | Some r =>
        if Reply.is_sleeping r
        then Some (process_replies (set_queue c (awake_at (m_reply_queue c) i)))
        else None
    | None => Some (process_replies c)
    end
  else Some c.

(** Completion handlers the event loop may run on a connection. *)
Inductive event :=
| ReadDone (e : error_code) (data : bytes)
| WriteDone (e : error_code) (n : nat)
| TimerDone (i : nat) (e : error_code).

(** One handler; [None] when the event cannot occur in this state. *)
Definition step (c : t) (ev : event) : option t :=
  match ev with
  | ReadDone e data =>
      if socket.reading (m_socket c) then Some (handle_read c e data)
      else None
  | WriteDone e n => Some (handle_write c e n)
  | TimerDone i e => timed_out c i e
  end.

Fixpoint run (c : t) (evs : list event) : option t :=
  match evs with
  | [] => Some c
  | ev :: evs' =>
      match step c ev with
      | Some c' => run c' evs'
      | None => None
      end
  end.

(** What has been handed to the socket, and what waits in the queue. *)
Definition wire (c : t) : list bytes := socket.written (m_socket c).
Definition pending (c : t) : list bytes := map Reply.str (m_reply_queue c).

End tcp_connection.

(** ** Listener: [class tcp_server] and [main] *)

Module tcp_server.

Record t := mk {
  m_acceptor_port : Z;                (* the endpoint of m_acceptor *)
  m_count : Z;
  new_connection : tcp_connection.t   (* the one async_accept waits on *)
}.

(** [void start_accept()], given the members. *)
Definition start_accept (port count : Z) : t :=
  let count := int_wrap (count + 1) in
  mk port count (tcp_connection.create count).

(** [tcp_server(io_service)]: the endpoint is [tcp::v4(), 9001]. *)
Definition create : t := start_accept 9001 0.

(** [void handle_accept(new_connection, error)]: the accepted connection,
    when there is one, and the server waiting for the next one. *)
Definition handle_accept (srv : t) (error : error_code)
  : option tcp_connection.t * t :=
  (if negb (failed error)
   then Some (tcp_connection.start (tcp_connection.accept (new_connection srv)))
   else None,
   start_accept (m_acceptor_port srv) (m_count srv)).

End tcp_server.

(** [int main()]: the process arguments are not a parameter of [main] and
    are read nowhere. The result is the server the event loop runs. *)
Definition main (argv : list bytes) : tcp_server.t := tcp_server.create.

(** * The vocabulary of the statements *)

(** [strtoul] finds no digit where it looks for one: after white space and
    an optional sign. *)
Definition no_digits (v : bytes) : bool :=
  let s1 := skip_space v in
  let s2 :=
    match s1 with
    | c :: t => if Ascii.eqb c "-" then t else if Ascii.eqb c "+" then t else s1
    | [] => s1
    end in
  match s2 with
  | c :: _ => negb (isdigit c)
  | [] => true
  end.

(** A non-negative integer in decimal: digits, and at least one. *)
Definition decimal_numeral (v : bytes) : bool :=
  (nonempty_bytes v && forallb isdigit v)%bool.

(** The integer a decimal numeral stands for. *)
Definition numeral_value (v : bytes) : Z :=
  fold_left (fun acc c => acc * 10 + digit_val c) v 0.

(** Bytes that end a line, and strings without them. *)
Definition is_eol (c : ascii) : bool := (Ascii.eqb c CR || Ascii.eqb c LF)%bool.

Definition no_eol (s : bytes) : bool := forallb (fun c => negb (is_eol c)) s.

Definition no_lf (s : bytes) : bool := forallb (fun c => negb (Ascii.eqb c LF)) s.

Definition no_colon (s : bytes) : bool :=
  forallb (fun c => negb (Ascii.eqb c ":")) s.

Definition nonempty (s : bytes) : bool := nonempty_bytes s.

Definition starts_with_space (s : bytes) : bool :=
  match s with c :: _ => Ascii.eqb c " " | [] => false end.

(** A line of a request: [KEY: VALUE], a line whose colon is not followed by
    a space, or a line without a colon after its first byte (the request
    line, for one). *)
Inductive line :=
| Field (k v : bytes)
| Malformed (k rest : bytes)
| Text (t : bytes).

(** The bytes of a line on the wire. *)
Definition line_bytes (l : line) : bytes :=
  match l with
  | Field k v => k ++ lit ": " ++ v ++ CRLF
  | Malformed k rest => k ++ lit ":" ++ rest ++ CRLF
  | Text t => t ++ CRLF
  end.

(** The key is not empty and holds no colon after its first byte (a colon
    that is the first byte of a line is read as part of the key); no CR or
    LF inside the line; in a malformed line the colon that ends the key is
    not followed by a space. *)
Definition line_ok (l : line) : bool :=
  match l with
  | Field k v => nonempty k && no_eol k && no_colon (tl k) && no_eol v
  | Malformed k rest =>
      nonempty k && no_eol k && no_colon (tl k) && no_eol rest
      && negb (starts_with_space rest)
  | Text t => nonempty t && no_eol t && no_colon (tl t)
  end%bool.

(** A line with a colon that is not followed by a space, and that is no
    [KEY: VALUE] line: the colon that ends the key of a malformed line, or
    a colon that is the first byte of the line and its only one. *)
Definition colon_without_space (l : line) : bool :=
  match l with
  | Field _ _ => false
  | Malformed _ _ => true
  | Text t =>
      match t with
      | c :: r => (Ascii.eqb c ":" && negb (starts_with_space r))%bool
      | [] => false
      end
  end.

(** A request: its lines and the empty line that ends it. *)
Definition request_bytes (ls : list line) : bytes :=
  concat (map line_bytes ls) ++ CRLF.

(** What the lines of a request leave in [m_sleep] and [m_request]. *)
Definition line_sleep (l : line) (z : Z) : Z :=
  match l with
  | Field k v => if bytes_eqb k (lit "X-Sleep") then strtoul v else z
  | _ => z
  end.

Definition line_request (l : line) (z : Z) : Z :=
  match l with
  | Field k v =>
      if bytes_eqb k (lit "X-Sleep") then z
      else if bytes_eqb k (lit "X-Request") then strtoul v else z
  | _ => z
  end.

Definition lines_sleep (ls : list line) (z : Z) : Z :=
  fold_left (fun z l => line_sleep l z) ls z.

Definition lines_request (ls : list line) (z : Z) : Z :=
  fold_left (fun z l => line_request l z) ls z.

(** The extractor after a line. *)
Definition line_header (l : line) : header.t :=
  match l with
  | Field k v => header.mk k v header.s_matched false
  | _ => header.create
  end.

(** The boundary matcher of a connection with its cursor at [n]. *)
Definition eom_at (n : nat) : parser.t := parser.mk (CRLF ++ CRLF) false n.

(** The bytes of a line without its line end. *)
Definition line_content (l : line) : bytes :=
  match l with
  | Field k v => k ++ lit ": " ++ v
  | Malformed k rest => k ++ lit ":" ++ rest
  | Text t => t
  end.

(** A [KEY: VALUE] line with the key [key]. *)
Definition has_key (key : bytes) (l : line) : bool :=
  match l with
  | Field k _ => bytes_eqb k key
  | _ => false
  end.

Section HeaderStates.

Import header.

(** A state at the start of a line: freshly reset, or holding the pair of
    the line before. *)
Definition line_start (h : t) : Prop := h = create \/ matched h = true.

(** Once a line is in error, nothing but its line feed changes that, and
    the line feed resets the extractor. *)
Definition in_error (h : t) : Prop :=
  m_error h = true /\
  (m_state h = s_colon \/ m_state h = s_value \/ m_state h = s_carriage_return).

End HeaderStates.

Section ConnectionStates.

Import tcp_connection.

(** [a] is a front segment of [b]. *)
Definition prefix {A} (a b : list A) : Prop := exists r, b = a ++ r.

(** Every reply that was created and not discarded, oldest first. *)
Definition history (c : t) : list bytes := wire c ++ pending c.

(** The state [queue_reply] hands to [process_replies]. *)
Definition queued (c : t) : t :=
  let buf := reply_text (m_instance c) (m_request c) (int_wrap (m_reply c + 1)) in
  let q := m_reply_queue c ++ [Reply.create buf] in
  mk (m_instance c) (int_wrap (m_reply c + 1)) (m_closed c) (m_socket c)
     (m_eom c) (m_header c) (m_sleep c) 0
     (if negb (m_sleep c =? 0) then set_sleeping_back q (m_sleep c) else q).

(** The replies created for the request ids [reqs] on connection [inst]
    when the counter stands at [k]. *)
Fixpoint numbered (inst k : Z) (reqs : list Z) : list bytes :=
  match reqs with
  | [] => []
  | q :: t =>
      reply_text inst q (int_wrap (k + 1)) :: numbered inst (int_wrap (k + 1)) t
  end.

(** [n] times [++m_reply]. *)
Fixpoint count_up (k : Z) (n : nat) : Z :=
  match n with
  | O => k
  | S n' => count_up (int_wrap (k + 1)) n'
  end.

(** What each handler does to the output and to the counter. *)
Definition extends (c c' : t) (reqs : list Z) : Prop :=
  m_instance c' = m_instance c /\
  m_reply c' = count_up (m_reply c) (length reqs) /\
  prefix (wire c) (wire c') /\
  prefix (wire c') (history c ++ numbered (m_instance c) (m_reply c) reqs) /\
  (m_closed c' = false ->
   m_closed c = false /\
   history c' = history c ++ numbered (m_instance c) (m_reply c) reqs) /\
  (m_closed c = true -> m_closed c' = true /\ wire c' = wire c).

(** The connection between two lines of a request. *)
Definition at_line_start (c : t) : Prop :=
  (exists n, (n < 4)%nat /\ m_eom c = eom_at n) /\
  line_start (m_header c).

(** The connection between two requests. *)
Definition at_boundary (c : t) : Prop :=
  m_eom c = eom_at 0 /\ m_header c = header.create /\
  m_sleep c = 0 /\ m_request c = 0.

(** The connection after the lines [ls]. *)
Definition after_lines (c : t) (ls : list line) : t :=
  mk (m_instance c) (m_reply c) (m_closed c) (m_socket c)
     (fold_left (fun _ _ => eom_at 2) ls (m_eom c))
     (fold_left (fun _ l => line_header l) ls (m_header c))
     (lines_sleep ls (m_sleep c)) (lines_request ls (m_request c))
     (m_reply_queue c).

(** The connection after a request that left [sleep] and [request]. *)
Definition answered (c : t) (sleep request : Z) : t :=
  set_sleep
    (queue_reply
       (mk (m_instance c) (m_reply c) (m_closed c) (m_socket c)
           (eom_at 0) header.create sleep request (m_reply_queue c)))
    0.

(** A closed connection has no read outstanding and an empty queue. *)
Definition closed_inv (c : t) : Prop :=
  m_closed c = true ->
  socket.reading (m_socket c) = false /\ m_reply_queue c = [].

(** A request without header fields, and the read that delivers it. *)
Definition get_request : bytes := request_bytes [Text (lit "GET / HTTP/1.1")].

Definition get_read : event := ReadDone success get_request.

(** Three pipelined requests with delays 0, 1000 and 0 milliseconds,
    received in one read; then the timer of the second one fires. *)
Definition example_conn : t := start (accept (create 1)).

Definition example_request (sleep id : string) : list line :=
  [Text (lit "GET / HTTP/1.1"); Field (lit "Host") (lit "localhost:9001");
   Field (lit "X-Sleep") (lit sleep); Field (lit "X-Request") (lit id)].

Definition example_stream : bytes :=
  request_bytes (example_request "0" "1")
  ++ request_bytes (example_request "1000" "2")
  ++ request_bytes (example_request "0" "3").

Definition example_events : list event :=
  [ReadDone success example_stream; TimerDone 0 success].

(** The connection while the second reply sleeps. *)
Definition example_blocked : t := handle_read example_conn success example_stream.

(** The connection after a read failed with [ECONNRESET]. *)
Definition example_closed : t := handle_read example_blocked 104 [].

End ConnectionStates.

(** ** The accept loop *)

(** The event loop delivering accept completions to [handle_accept], one
    after the other: the connections handed out, in order ([None] for an
    accept that failed), and the server afterwards. *)
Fixpoint accept_loop (srv : tcp_server.t) (errors : list error_code)
  : list (option tcp_connection.t) * tcp_server.t :=
  match errors with
  | [] => ([], srv)
  | e :: errors' =>
      let '(conn, srv') := tcp_server.handle_accept srv e in
      let '(conns, srv'') := accept_loop srv' errors' in
      (conn :: conns, srv'')
  end.

(** The connection with the flag for an outstanding read set to [b]. *)
Definition set_reading (c : tcp_connection.t) (b : bool) : tcp_connection.t :=
  tcp_connection.set_socket c
    (socket.mk (socket.is_open (tcp_connection.m_socket c)) b
               (socket.written (tcp_connection.m_socket c))).

(** The first byte is a decimal digit. *)
Definition starts_with_digit (s : bytes) : bool :=
  match s with c :: _ => isdigit c | [] => false end.

(** A request has at least one line. *)
Definition nonempty_lines (ls : list line) : bool :=
  match ls with [] => false | _ :: _ => true end.

(** The header block of a reply, as lines. *)
Definition reply_head_lines (content_length inst req rep : Z) : list line :=
  [Text (lit "HTTP/1.1 200 OK");
   Field (lit "Keep-Alive") (lit "timeout=10 max=400");
   Field (lit "Content-Length") (print_ulong content_length);
   Field (lit "Content-Type") (lit "text/html");
   Field (lit "X-Connection") (print_int inst);
   Field (lit "X-Request") (print_ulong req);
   Field (lit "X-Reply") (print_int rep)].

(** ** The driver: the second program of [src/unnamed/part_000] *)

Module driver.

(** [int const PIPELEN = 4;] and [int const NRREQUESTS = 10;] *)
Definition PIPELEN : Z := 4.
Definition NRREQUESTS : Z := 10.

(** The custom headers of request [i], [headers[i]], as [main] builds them
    with [snprintf] and [curl_slist_append]. *)
Definition headers (i : Z) : list bytes :=
  let header_buf :=
    snprintf (lit "X-Sleep: %d") [A_int (if negb (i =? 1) then 100 else 1100)] in
  let h := if 0 <? i then [header_buf] else [] in
  let header_buf := snprintf (lit "X-Request: %d") [A_int i] in
  let h := h ++ [header_buf] in
  if i =? 7 then h ++ [snprintf (lit "X-Disconnect: yes") []] else h.

(** [added], [running], and the handles given to [curl_multi_add_handle],
    in order. *)
Record progress := mk {
  added : Z;
  running : Z;
  pipeline : list Z
}.

(** [void add_next_handle(multi_handle, handles, &added, &running)] *)
Definition add_next_handle (st : progress) : progress :=
  mk (int_wrap (added st + 1)) (int_wrap (running st + 1))
     (pipeline st ++ [added st]).

(** [for (int n = still_running; n < PIPELEN && added < NRREQUESTS; ++n)
    add_next_handle(...)], with one unit of fuel for each turn. *)
Fixpoint refill_loop (fuel : nat) (n : Z) (st : progress) : progress :=
  match fuel with
  | O => st
  | S fuel' =>
      if ((n <? PIPELEN) && (added st <? NRREQUESTS))%bool
      then refill_loop fuel' (int_wrap (n + 1)) (add_next_handle st)
      else st
  end.

(** The loop leaves [n < PIPELEN] after at most [PIPELEN - still_running]
    turns. *)
Definition refill (still_running : Z) (st : progress) : progress :=
  refill_loop (Z.to_nat (PIPELEN - still_running)) still_running st.

(** The [timeout] given to [select], [(tv_sec, tv_usec)], for the
    [curl_timeo] that [curl_multi_timeout] returned. *)
Definition select_timeout (curl_timeo : Z) : Z * Z :=
  let tv_sec := 1 in
  let tv_usec := 0 in
  if 0 <=? curl_timeo then
    let tv_sec := Z.quot curl_timeo 1000 in
    if 1 <? tv_sec then (1, tv_usec)
    else (tv_sec, Z.rem curl_timeo 1000 * 1000)
  else (tv_sec, tv_usec).

End driver.

(** The delay the driver asks for request [i]. *)
Definition driver_delay (i : Z) : Z :=
  if i =? 0 then 0 else if i =? 1 then 1100 else 100.

(** The request as it reaches the server: the lines the HTTP library puts
    before and after the custom headers, each custom header followed by
    CR LF, and the empty line. *)
Definition driver_request (before after : list line) (i : Z) : bytes :=
  concat (map line_bytes before)
  ++ concat (map (fun h => h ++ CRLF) (driver.headers i))
  ++ concat (map line_bytes after) ++ CRLF.

(** No line is an X-Sleep or an X-Request header. *)
Definition no_control_header (ls : list line) : bool :=
  forallb (fun l => negb (has_key (lit "X-Sleep") l)
                    && negb (has_key (lit "X-Request") l))%bool ls.

(** ** Further examples *)

(** The sleeping reply at the front of [example_blocked]'s queue, and the
    replies behind it. *)
Definition example_front : Reply.t :=
  hd (Reply.create []) (tcp_connection.m_reply_queue example_blocked).
Definition example_behind : list Reply.t :=
  tl (tcp_connection.m_reply_queue example_blocked).

(** A connection with two sleeping replies queued. *)
Definition example_two_asleep : tcp_connection.t :=
  tcp_connection.handle_read example_conn success
    (request_bytes (example_request "1000" "1")
     ++ request_bytes (example_request "500" "2")).

(** The lines an HTTP library sends ahead of the custom headers. *)
Definition example_library_lines : list line :=
  [Text (lit "GET / HTTP/1.1"); Field (lit "Host") (lit "localhost:9001");
   Field (lit "Accept") (lit "*/*")].

(** The driver after three requests, two of them in flight. *)
Definition example_progress : driver.progress := driver.mk 3 2 [0; 1; 2].

(** * Properties *)

Arguments print_ulong : simpl never.
Arguments print_int : simpl never.
Arguments reply_text : simpl never.
Arguments body_text : simpl never.
Arguments strtoul : simpl never.
Arguments int_wrap : simpl never.
Arguments parser.feed : simpl never.
Arguments header.feed : simpl never.

(** ** Bytes and machine integers *)

Lemma bytes_eqb_eq (a b : bytes) : bytes_eqb a b = true <-> a = b.
Proof.
  unfold bytes_eqb. destruct (list_eq_dec ascii_dec a b); split; congruence.
Qed.

Lemma bytes_eqb_refl (a : bytes) : bytes_eqb a a = true.
Proof. now apply bytes_eqb_eq. Qed.

Lemma int_wrap_small (z : Z) : INT_MIN <= z <= INT_MAX -> int_wrap z = z.
Proof.
  unfold int_wrap, INT_MIN, INT_MAX. intros H.
  rewrite Z.mod_small; lia.
Qed.

Lemma int_wrap_range (z : Z) : INT_MIN <= int_wrap z <= INT_MAX.
Proof.
  unfold int_wrap, INT_MIN, INT_MAX.
  pose proof (Z.mod_pos_bound (z - -2147483648) (2 ^ 32) ltac:(lia)). lia.
Qed.

(** ** Printing and reading numbers *)

Section Numbers.

Lemma digits_of_length (fuel : nat) (n : Z) (acc : bytes) :
  (length (digits_of fuel n acc) <= fuel + length acc)%nat.
Proof.
  revert n acc. induction fuel as [|f IH]; intros n acc; simpl; [lia|].
  destruct (n / 10 =? 0); simpl; [lia|].
  specialize (IH (n / 10) (digit_char (n mod 10) :: acc)). simpl in IH. lia.
Qed.

Lemma print_ulong_length (n : Z) : (length (print_ulong n) <= 20)%nat.
Proof. exact (digits_of_length 20 n []). Qed.

Lemma print_int_length (z : Z) : (length (print_int z) <= 21)%nat.
Proof.
  unfold print_int. destruct (z <? 0); cbn [length].
  - apply le_n_S. exact (digits_of_length 20 (- z) []).
  - apply Nat.le_trans with 20%nat; [exact (digits_of_length 20 z [])|].
    repeat constructor.
Qed.

Lemma digits_of_S (fuel : nat) (n : Z) (acc : bytes) :
  digits_of (S fuel) n acc
  = if n / 10 =? 0 then digit_char (n mod 10) :: acc
    else digits_of fuel (n / 10) (digit_char (n mod 10) :: acc).
Proof. reflexivity. Qed.

Lemma digit_char_spec (d : Z) :
  0 <= d < 10 ->
  isdigit (digit_char d) = true /\ digit_val (digit_char d) = d.
Proof.
  intros H.
  assert (E : d = 0 \/ d = 1 \/ d = 2 \/ d = 3 \/ d = 4 \/
              d = 5 \/ d = 6 \/ d = 7 \/ d = 8 \/ d = 9) by lia.
  repeat (destruct E as [-> | E]; [split; reflexivity|]).
  subst. split; reflexivity.
Qed.

(** The digits printed for [n] read back as [n]. *)
Lemma digits_of_read (fuel : nat) :
  forall (n : Z) (acc : bytes),
    0 <= n < 10 ^ Z.of_nat (S fuel) ->
    exists D,
      digits_of (S fuel) n acc = D ++ acc /\ D <> [] /\
      Forall (fun c => isdigit c = true) D /\
      forall rest a any,
        read_digits (D ++ rest) a any
        = read_digits rest (a * 10 ^ Z.of_nat (length D) + n) true.
Proof.
  induction fuel as [|f IH]; intros n acc Hn.
  - assert (Hd : 0 <= n < 10) by (change (10 ^ Z.of_nat 1) with 10 in Hn; lia).
    destruct (digit_char_spec _ Hd) as [Hdig Hval].
    assert (Hm : n mod 10 = n) by (apply Z.mod_small; lia).
    assert (Hq : n / 10 = 0) by (apply Z.div_small; lia).
    rewrite digits_of_S, Hm, Hq. change (0 =? 0) with true. cbv iota.
    exists [digit_char n]. repeat split.
    + discriminate.
    + constructor; [exact Hdig|constructor].
    + intros rest a any. cbn [app read_digits length]. rewrite Hdig, Hval.
      f_equal.
  - assert (Hd : 0 <= n mod 10 < 10) by (apply Z.mod_pos_bound; lia).
    destruct (digit_char_spec _ Hd) as [Hdig Hval].
    rewrite (digits_of_S (S f)).
    destruct (n / 10 =? 0) eqn:E.
    + apply Z.eqb_eq in E.
      assert (Hsmall : n mod 10 = n).
      { rewrite (Z.div_mod n 10) at 2 by lia. lia. }
      exists [digit_char (n mod 10)]. repeat split.
      * discriminate.
      * constructor; [exact Hdig|constructor].
      * intros rest a any. cbn [app read_digits length]. rewrite Hdig, Hval.
        f_equal. change (10 ^ Z.of_nat 1) with 10. lia.
    + apply Z.eqb_neq in E.
      assert (Hq : 0 <= n / 10 < 10 ^ Z.of_nat (S f)).
      { split; [apply Z.div_pos; lia|].
        apply Z.div_lt_upper_bound; [lia|].
        replace (10 * 10 ^ Z.of_nat (S f)) with (10 ^ Z.of_nat (S (S f))); [lia|].
        rewrite (Nat2Z.inj_succ (S f)), Z.pow_succ_r; lia. }
      destruct (IH (n / 10) (digit_char (n mod 10) :: acc) Hq)
        as (D & HD & Hne & Hall & Hread).
      exists (D ++ [digit_char (n mod 10)]). repeat split.
      * rewrite HD, <- app_assoc. reflexivity.
      * destruct D; discriminate.
      * apply Forall_app. split; [exact Hall|].
        constructor; [exact Hdig|constructor].
      * intros rest a any. rewrite <- app_assoc, Hread.
        cbn [app read_digits]. rewrite Hdig, Hval. f_equal.
        rewrite length_app. cbn [length].
        rewrite Nat2Z.inj_add, Z.pow_add_r by lia.
        change (10 ^ Z.of_nat 1) with 10.
        rewrite (Z.div_mod n 10) at 3 by lia. ring.
Qed.

Lemma isdigit_not_space_or_sign (c : ascii) :
  isdigit c = true ->
  isspace c = false /\ Ascii.eqb c "-" = false /\ Ascii.eqb c "+" = false.
Proof.
  unfold isdigit, isspace. intros H.
  apply andb_true_iff in H. destruct H as [H1 H2].
  apply Nat.leb_le in H1. apply Nat.leb_le in H2.
  repeat split.
  - apply orb_false_iff. split.
    + apply Nat.eqb_neq. lia.
    + apply andb_false_iff. right. apply Nat.leb_gt. lia.
  - destruct (Ascii.eqb_spec c "-"); [|reflexivity].
    subst. change (nat_of_ascii "-") with 45%nat in H1. lia.
  - destruct (Ascii.eqb_spec c "+"); [|reflexivity].
    subst. change (nat_of_ascii "+") with 43%nat in H1. lia.
Qed.

(** [strtoul] reads what [%lu] prints. *)
Lemma strtoul_print_ulong (n : Z) :
  0 <= n <= ULONG_MAX -> strtoul (print_ulong n) = n.
Proof.
  intros Hn. unfold print_ulong.
  destruct (digits_of_read 19 n []) as (D & HD & Hne & Hall & Hread).
  { unfold ULONG_MAX in Hn. change (10 ^ Z.of_nat 20) with 100000000000000000000. lia. }
  rewrite HD, app_nil_r. destruct D as [|c D]; [contradiction|].
  inversion Hall as [|? ? Hc _]; subst.
  destruct (isdigit_not_space_or_sign c Hc) as (Hs & Hm & Hp).
  unfold strtoul. cbn [skip_space]. rewrite Hs, Hm, Hp.
  specialize (Hread [] 0 false). rewrite app_nil_r in Hread.
  rewrite Hread. cbn [read_digits negb]. rewrite Z.mul_0_l, Z.add_0_l.
  destruct (ULONG_MAX <? n) eqn:E; [apply Z.ltb_lt in E; lia|reflexivity].
Qed.

Lemma body_text_unfold (rep inst req : Z) :
  body_text rep inst req
  = lit "Reply " ++ print_int rep ++ lit " on connection " ++ print_int inst
      ++ lit " for request #" ++ print_ulong req.
Proof.
  unfold body_text, snprintf. cbv -[print_int print_ulong app]. cbn [app].
  now rewrite app_nil_r.
Qed.

Lemma body_text_length (rep inst req : Z) :
  (length (body_text rep inst req) <= 97)%nat.
Proof.
  rewrite body_text_unfold. rewrite !length_app.
  pose proof (print_int_length rep). pose proof (print_int_length inst).
  pose proof (print_ulong_length req). simpl. lia.
Qed.

Lemma reply_text_unfold (inst req rep : Z) :
  reply_text inst req rep
  = lit "HTTP/1.1 200 OK" ++ CRLF ++
    lit "Keep-Alive: timeout=10 max=400" ++ CRLF ++
    lit "Content-Length: "
      ++ print_ulong (ulong_wrap (Z.of_nat (length (body_text rep inst req)) + 27))
      ++ CRLF ++
    lit "Content-Type: text/html" ++ CRLF ++
    lit "X-Connection: " ++ print_int inst ++ CRLF ++
    lit "X-Request: " ++ print_ulong req ++ CRLF ++
    lit "X-Reply: " ++ print_int rep ++ CRLF ++
    CRLF ++
    lit "<html><body>" ++ body_text rep inst req ++ lit "</body></html>" ++ [LF].
Proof. reflexivity. Qed.

(** [assert(size < sizeof body)] and [assert(size < sizeof buf)] in
    [queue_reply] never fail. *)
Lemma queue_reply_assertions (inst req rep : Z) :
  (length (body_text rep inst req) < 256)%nat /\
  (length (reply_text inst req rep) < 512)%nat.
Proof.
  pose proof (body_text_length rep inst req) as Hb.
  split; [lia|].
  rewrite reply_text_unfold, !length_app.
  pose proof (print_int_length rep). pose proof (print_int_length inst).
  pose proof (print_ulong_length req).
  pose proof (print_ulong_length
                (ulong_wrap (Z.of_nat (length (body_text rep inst req)) + 27))).
  generalize dependent
    (length (print_ulong
               (ulong_wrap (Z.of_nat (length (body_text rep inst req)) + 27)))).
  generalize dependent (length (body_text rep inst req)).
  generalize dependent (length (print_int rep)).
  generalize dependent (length (print_int inst)).
  generalize dependent (length (print_ulong req)).
  intros. simpl. lia.
Qed.

End Numbers.

(** ** Values that are no numbers *)

Lemma strtoul_no_digits (v : bytes) : no_digits v = true -> strtoul v = 0.
Proof.
  unfold no_digits, strtoul.
  destruct (skip_space v) as [|c t]; [reflexivity|].
  destruct (Ascii.eqb c "-"); [|destruct (Ascii.eqb c "+")].
  - destruct t as [|d r]; [reflexivity|]. cbn [read_digits].
    intros H. apply negb_true_iff in H. now rewrite H.
  - destruct t as [|d r]; [reflexivity|]. cbn [read_digits].
    intros H. apply negb_true_iff in H. now rewrite H.
  - cbn [read_digits]. intros H. apply negb_true_iff in H. now rewrite H.
Qed.

(** ** Header lines *)

Section HeaderLines.

Import header.

Lemma forallb_cons_true {A} (f : A -> bool) (x : A) (l : list A) :
  forallb f (x :: l) = true -> f x = true /\ forallb f l = true.
Proof. simpl. intros H. now apply andb_true_iff in H. Qed.

Lemma is_eol_false (c : ascii) :
  negb (is_eol c) = true -> Ascii.eqb c CR = false /\ Ascii.eqb c LF = false.
Proof.
  unfold is_eol. intros H. apply negb_true_iff, orb_false_iff in H. exact H.
Qed.

Lemma no_eol_no_lf (s : bytes) : no_eol s = true -> no_lf s = true.
Proof.
  induction s as [|c s IH]; [reflexivity|]. intros H.
  apply forallb_cons_true in H. destruct H as [Hc Hs].
  apply is_eol_false in Hc. destruct Hc as [_ Hc].
  simpl. now rewrite Hc, (IH Hs).
Qed.

Lemma header_feed_line_start (h : t) (c : ascii) :
  line_start h -> feed h c = feed create c.
Proof.
  intros [-> | H]; [reflexivity|]. unfold feed. rewrite H. reflexivity.
Qed.

Lemma header_feed_all_line_start (h : t) (s : bytes) :
  line_start h -> s <> [] -> feed_all h s = feed_all create s.
Proof.
  intros Hh Hs. destruct s as [|c s]; [contradiction|].
  unfold feed_all. simpl. now rewrite (header_feed_line_start h c Hh).
Qed.

(** Only a line feed completes a pair. *)
Lemma matched_only_on_lf (h : t) (c : ascii) :
  Ascii.eqb c LF = false -> matched (feed h c) = false.
Proof.
  intros Hc. unfold feed, after_switch. rewrite Hc.
  destruct (matched h) eqn:Hm.
  - simpl. reflexivity.
  - destruct h as [k v st e]. unfold matched in Hm. simpl in *.
    destruct st; simpl;
      repeat match goal with
             | |- context [if ?b then _ else _] => destruct b; simpl
             end; try reflexivity; discriminate.
Qed.

(** Key bytes accumulate. *)
Lemma header_feed_key (k : bytes) :
  forall k0, k0 <> [] -> no_lf k = true -> no_colon k = true ->
    feed_all (mk k0 [] s_key false) k = mk (k0 ++ k) [] s_key false.
Proof.
  induction k as [|c k IH]; intros k0 Hk0 Hlf Hcol.
  - simpl. now rewrite app_nil_r.
  - apply forallb_cons_true in Hlf. destruct Hlf as [Hc1 Hlf].
    apply forallb_cons_true in Hcol. destruct Hcol as [Hc2 Hcol].
    apply negb_true_iff in Hc1, Hc2.
    unfold feed_all. simpl fold_left.
    assert (E : feed (mk k0 [] s_key false) c = mk (k0 ++ [c]) [] s_key false).
    { unfold feed, after_switch. simpl. now rewrite Hc2, Hc1. }
    rewrite E. fold (feed_all (mk (k0 ++ [c]) [] s_key false) k).
    rewrite IH; auto.
    + now rewrite <- app_assoc.
    + destruct k0; discriminate.
Qed.

Lemma header_feed_name (k : bytes) :
  nonempty k = true -> no_lf k = true -> no_colon (tl k) = true ->
  feed_all create k = mk k [] s_key false.
Proof.
  destruct k as [|c k]; [discriminate|]. intros _ Hlf Hcol.
  apply forallb_cons_true in Hlf. destruct Hlf as [Hc1 Hlf].
  cbn [tl] in Hcol.
  apply negb_true_iff in Hc1.
  unfold feed_all. simpl fold_left.
  assert (E : feed create c = mk [c] [] s_key false).
  { unfold feed, after_switch. simpl. now rewrite Hc1. }
  rewrite E. fold (feed_all (mk [c] [] s_key false) k).
  rewrite header_feed_key; auto. discriminate.
Qed.

(** Value bytes accumulate. *)
Lemma header_feed_value (v : bytes) :
  forall k v0 e, no_eol v = true ->
    feed_all (mk k v0 s_value e) v = mk k (v0 ++ v) s_value e.
Proof.
  induction v as [|c v IH]; intros k v0 e Hv.
  - simpl. now rewrite app_nil_r.
  - apply forallb_cons_true in Hv. destruct Hv as [Hc Hv].
    apply is_eol_false in Hc. destruct Hc as [Hcr Hlf].
    unfold feed_all. simpl fold_left.
    assert (E : feed (mk k v0 s_value e) c = mk k (v0 ++ [c]) s_value e).
    { unfold feed, after_switch. simpl. now rewrite Hcr, Hlf. }
    rewrite E. fold (feed_all (mk k (v0 ++ [c]) s_value e) v).
    rewrite IH; auto. now rewrite <- app_assoc.
Qed.

Lemma header_feed_in_error (h : t) (c : ascii) :
  in_error h -> Ascii.eqb c LF = false -> in_error (feed h c).
Proof.
  intros [He Hs] Hc. destruct h as [k v st e]. simpl in *. subst e.
  unfold in_error, feed, after_switch, matched. rewrite Hc.
  destruct Hs as [-> | [-> | ->]]; simpl;
    repeat match goal with
           | |- context [if ?b then _ else _] => destruct b; simpl
           end; auto.
Qed.

Lemma header_feed_all_in_error (s : bytes) (h : t) :
  in_error h -> no_lf s = true -> in_error (feed_all h s).
Proof.
  revert h. induction s as [|c s IH]; intros h Hh Hs; [exact Hh|].
  apply forallb_cons_true in Hs. destruct Hs as [Hc Hs].
  apply negb_true_iff in Hc.
  unfold feed_all. simpl. apply IH; [|exact Hs]. now apply header_feed_in_error.
Qed.

Lemma header_feed_lf_in_error (h : t) : in_error h -> feed h LF = create.
Proof.
  intros [He Hs]. destruct h as [k v st e]. simpl in *. subst e.
  unfold feed, after_switch, matched.
  destruct Hs as [-> | [-> | ->]]; reflexivity.
Qed.

Lemma header_feed_all_app (h : t) (a b : bytes) :
  feed_all h (a ++ b) = feed_all (feed_all h a) b.
Proof. apply fold_left_app. Qed.

Lemma header_feed_all_cons (h : t) (c : ascii) (s : bytes) :
  feed_all h (c :: s) = feed_all (feed h c) s.
Proof. reflexivity. Qed.

Lemma line_bytes_nonempty (l : line) : line_ok l = true -> line_bytes l <> [].
Proof. destruct l as [[|c k] v | [|c k] r | [|c t]]; simpl; discriminate. Qed.

(** The extractor over a whole line. *)
Lemma header_feed_line (h : t) (l : line) :
  line_start h -> line_ok l = true ->
  feed_all h (line_bytes l) = line_header l.
Proof.
  intros Hh Hok.
  rewrite (header_feed_all_line_start h _ Hh (line_bytes_nonempty l Hok)).
  destruct l as [k v | k rest | txt]; simpl in Hok;
    repeat (apply andb_true_iff in Hok; destruct Hok as [Hok ?]).
  - (* KEY: VALUE *)
    simpl line_bytes. rewrite header_feed_all_app, header_feed_name; auto using no_eol_no_lf.
    change (lit ": " ++ v ++ CRLF) with (":"%char :: " "%char :: v ++ CRLF).
    rewrite !header_feed_all_cons.
    change (feed (mk k [] s_key false) ":") with (mk k [] s_colon false).
    change (feed (mk k [] s_colon false) " ") with (mk k [] s_value false).
    rewrite header_feed_all_app, header_feed_value; auto.
  - (* the colon is not followed by a space *)
    simpl line_bytes. rewrite header_feed_all_app, header_feed_name; auto using no_eol_no_lf.
    change (lit ":" ++ rest ++ CRLF) with (":"%char :: rest ++ [CR] ++ [LF]).
    rewrite header_feed_all_cons.
    change (feed (mk k [] s_key false) ":") with (mk k [] s_colon false).
    change (rest ++ CRLF) with (rest ++ [CR] ++ [LF]).
    rewrite app_assoc, header_feed_all_app.
    assert (He : in_error (feed_all (mk k [] s_colon false) (rest ++ [CR]))).
    { destruct rest as [|c rest].
      - simpl. split; [reflexivity|]. simpl. auto.
      - match goal with H : no_eol (c :: rest) = true |- _ =>
          apply forallb_cons_true in H; destruct H as [Hc Hrest] end.
        apply is_eol_false in Hc. destruct Hc as [_ Hlf].
        match goal with H : negb (starts_with_space (c :: rest)) = true |- _ =>
          simpl in H; apply negb_true_iff in H; rename H into Hsp end.
        change ((c :: rest) ++ [CR]) with (c :: rest ++ [CR]).
        rewrite header_feed_all_cons. apply header_feed_all_in_error.
        + unfold feed, after_switch. simpl. rewrite Hsp, Hlf.
          split; [reflexivity|]. simpl. auto.
        + unfold no_lf. rewrite forallb_app. simpl.
          pose proof (no_eol_no_lf rest Hrest) as Hr. unfold no_lf in Hr.
          now rewrite Hr. }
    change (feed_all (feed_all (mk k [] s_colon false) (rest ++ [CR])) [LF])
      with (feed (feed_all (mk k [] s_colon false) (rest ++ [CR])) LF).
    now apply header_feed_lf_in_error.
  - (* no colon *)
    simpl line_bytes. rewrite header_feed_all_app, header_feed_name; auto using no_eol_no_lf.
Qed.

Lemma line_header_start (l : line) : line_start (line_header l).
Proof. destruct l; [right|left|left]; reflexivity. Qed.

Lemma split_at_lf (a p q : bytes) :
  no_lf a = true -> a ++ [LF] = p ++ LF :: q -> p = a /\ q = [].
Proof.
  revert p. induction a as [|c a IH]; intros p Ha E.
  - destruct p as [|c' p]; simpl in E.
    + injection E as <-. auto.
    + injection E as _ E. destruct p; discriminate.
  - apply forallb_cons_true in Ha. destruct Ha as [Hc Ha].
    apply negb_true_iff in Hc.
    destruct p as [|c' p]; simpl in E.
    + injection E as -> _. now rewrite Ascii.eqb_refl in Hc.
    + injection E as <- E. destruct (IH p Ha E) as [-> ->]. auto.
Qed.

(** The bytes of a line before its line feed hold no line feed. *)
Lemma line_bytes_lf (l : line) :
  line_ok l = true ->
  exists a, line_bytes l = a ++ [LF] /\ no_lf a = true.
Proof.
  intros Hok.
  destruct l as [k v | k rest | txt]; simpl in Hok;
    repeat (apply andb_true_iff in Hok; destruct Hok as [Hok ?]).
  - exists (k ++ lit ": " ++ v ++ [CR]). split.
    + repeat (progress (simpl; rewrite <- ?app_assoc)); reflexivity.
    + unfold no_lf. rewrite !forallb_app.
      repeat match goal with
             | H : no_eol _ = true |- _ =>
                 apply no_eol_no_lf in H; unfold no_lf in H; rewrite H; clear H
             end; reflexivity.
  - exists (k ++ lit ":" ++ rest ++ [CR]). split.
    + repeat (progress (simpl; rewrite <- ?app_assoc)); reflexivity.
    + unfold no_lf. rewrite !forallb_app.
      repeat match goal with
             | H : no_eol _ = true |- _ =>
                 apply no_eol_no_lf in H; unfold no_lf in H; rewrite H; clear H
             end; reflexivity.
  - exists (txt ++ [CR]). split.
    + repeat (progress (simpl; rewrite <- ?app_assoc)); reflexivity.
    + unfold no_lf. rewrite !forallb_app.
      repeat match goal with
             | H : no_eol _ = true |- _ =>
                 apply no_eol_no_lf in H; unfold no_lf in H; rewrite H; clear H
             end; reflexivity.
Qed.

(** Within a line, a pair can only be reported on the last byte. *)
Lemma no_match_within_line (h : t) (l : line) (p q : bytes) :
  line_ok l = true -> line_bytes l = p ++ q -> p <> [] -> q <> [] ->
  matched (feed_all h p) = false.
Proof.
  intros Hok E Hp Hq.
  destruct (exists_last Hp) as (p' & c & ->).
  rewrite header_feed_all_app.
  change (feed_all (feed_all h p') [c]) with (feed (feed_all h p') c).
  apply matched_only_on_lf.
  destruct (Ascii.eqb_spec c LF) as [-> | Hne]; [|reflexivity].
  destruct (line_bytes_lf l Hok) as (a & Ea & Ha).
  rewrite Ea, <- app_assoc in E. simpl in E.
  destruct (split_at_lf a p' q Ha E) as [_ ->]. contradiction.
Qed.

End HeaderLines.

(** ** The reply queue *)

Section ReplyQueue.

Import tcp_connection.

Lemma prefix_refl {A} (a : list A) : prefix a a.
Proof. exists []. now rewrite app_nil_r. Qed.

Lemma prefix_trans {A} (a b c : list A) : prefix a b -> prefix b c -> prefix a c.
Proof. intros [r ->] [r' ->]. exists (r ++ r'). now rewrite app_assoc. Qed.

Lemma prefix_app {A} (a r : list A) : prefix a (a ++ r).
Proof. now exists r. Qed.

(** The loop writes a front segment of the queue, all of it awake, and
    stops at the first sleeping reply. *)
Lemma flush_front (q : list Reply.t) (s : socket.t) :
  exists n,
    fst (flush q s) = skipn n q /\
    socket.written (snd (flush q s))
      = socket.written s ++ map Reply.str (firstn n q) /\
    socket.is_open (snd (flush q s)) = socket.is_open s /\
    socket.reading (snd (flush q s)) = socket.reading s /\
    forallb (fun r => negb (Reply.is_sleeping r)) (firstn n q) = true /\
    (match skipn n q with
     | [] => True
     | r :: _ => Reply.is_sleeping r = true
     end).
Proof.
  revert s. induction q as [|r q IH]; intros s; simpl.
  - exists 0%nat. simpl. rewrite app_nil_r. repeat split; auto.
  - destruct (Reply.is_sleeping r) eqn:Hr.
    + exists 0%nat. simpl. rewrite app_nil_r, Hr. repeat split; auto.
    + destruct (IH (socket.async_write s (Reply.str r)))
        as (n & Hq & Hw & Ho & Hrd & Hall & Hstop).
      exists (S n). simpl. rewrite Hr. simpl.
      rewrite Hq, Hw. simpl. rewrite <- app_assoc. simpl.
      rewrite Ho, Hrd. repeat split; auto.
Qed.

Lemma process_replies_front (c : t) :
  exists n,
    m_reply_queue (process_replies c) = skipn n (m_reply_queue c) /\
    wire (process_replies c)
      = wire c ++ map Reply.str (firstn n (m_reply_queue c)) /\
    forallb (fun r => negb (Reply.is_sleeping r))
            (firstn n (m_reply_queue c)) = true.
Proof.
  unfold process_replies. destruct (m_closed c).
  - exists 0%nat. simpl. now rewrite app_nil_r.
  - destruct (m_reply_queue c) as [|r q] eqn:Hq.
    + exists 0%nat. simpl. rewrite Hq, app_nil_r. auto.
    + destruct (flush_front (r :: q) (m_socket c))
        as (n & H1 & H2 & _ & _ & H3 & _).
      destruct (flush (r :: q) (m_socket c)) as [q' s'].
      exists n. unfold wire. simpl in *. auto.
Qed.

(** What [process_replies] leaves alone. *)
Lemma process_replies_frame (c : t) :
  let c' := process_replies c in
  m_instance c' = m_instance c /\ m_reply c' = m_reply c /\
  m_closed c' = m_closed c /\ m_eom c' = m_eom c /\
  m_header c' = m_header c /\ m_sleep c' = m_sleep c /\
  m_request c' = m_request c /\
  socket.is_open (m_socket c') = socket.is_open (m_socket c) /\
  socket.reading (m_socket c') = socket.reading (m_socket c).
Proof.
  unfold process_replies. destruct (m_closed c) eqn:Hc; [repeat split; auto|].
  destruct (m_reply_queue c) as [|r q]; [repeat split; auto|].
  destruct (flush_front (r :: q) (m_socket c))
    as (n & _ & _ & Ho & Hr & _).
  destruct (flush (r :: q) (m_socket c)) as [q' s'].
  simpl in *. repeat split; auto.
Qed.

Lemma process_replies_history (c : t) :
  history (process_replies c) = history c.
Proof.
  destruct (process_replies_front c) as (n & Hq & Hw & _).
  unfold history, pending. rewrite Hw, Hq, <- app_assoc, <- map_app.
  now rewrite firstn_skipn.
Qed.

Lemma process_replies_wire (c : t) : prefix (wire c) (wire (process_replies c)).
Proof.
  destruct (process_replies_front c) as (n & _ & Hw & _).
  rewrite Hw. apply prefix_app.
Qed.

Lemma process_replies_closed (c : t) :
  m_closed c = true -> process_replies c = c.
Proof. unfold process_replies. now intros ->. Qed.

Lemma process_replies_blocked (c : t) r q :
  m_reply_queue c = r :: q -> Reply.is_sleeping r = true ->
  process_replies c = c.
Proof.
  intros Hq Hr. unfold process_replies. rewrite Hq. simpl. rewrite Hr.
  destruct (m_closed c); [reflexivity|].
  destruct c; simpl in *. now subst.
Qed.

Lemma set_sleeping_back_str (q : list Reply.t) (z : Z) :
  map Reply.str (set_sleeping_back q z) = map Reply.str q.
Proof.
  induction q as [|r q IH]; [reflexivity|].
  destruct q as [|r' q'].
  - simpl. unfold Reply.set_sleeping, Reply.wakeup.
    destruct (0 <? z); [reflexivity|].
    now destruct (Reply.is_sleeping r).
  - change (set_sleeping_back (r :: r' :: q') z)
      with (r :: set_sleeping_back (r' :: q') z).
    change (map Reply.str (r :: set_sleeping_back (r' :: q') z))
      with (Reply.str r :: map Reply.str (set_sleeping_back (r' :: q') z)).
    now rewrite IH.
Qed.

Lemma awake_at_str (q : list Reply.t) (i : nat) :
  map Reply.str (awake_at q i) = map Reply.str q.
Proof.
  revert i. induction q as [|r q IH]; intros [|i]; simpl; auto.
  now rewrite IH.
Qed.

End ReplyQueue.

(** ** One reply per boundary *)

Section Handlers.

Import tcp_connection.

Lemma queue_reply_queued (c : t) : queue_reply c = process_replies (queued c).
Proof.
  unfold queue_reply, queued. simpl. destruct (negb (m_sleep c =? 0)); reflexivity.
Qed.

Lemma queued_pending (c : t) :
  pending (queued c)
  = pending c ++ [reply_text (m_instance c) (m_request c) (int_wrap (m_reply c + 1))].
Proof.
  unfold pending, queued. simpl.
  destruct (negb (m_sleep c =? 0)); rewrite ?set_sleeping_back_str, map_app;
    reflexivity.
Qed.

Lemma queue_reply_effect (c : t) :
  let c' := queue_reply c in
  m_instance c' = m_instance c /\
  m_reply c' = int_wrap (m_reply c + 1) /\
  m_closed c' = m_closed c /\
  m_eom c' = m_eom c /\ m_header c' = m_header c /\
  m_sleep c' = m_sleep c /\ m_request c' = 0 /\
  socket.is_open (m_socket c') = socket.is_open (m_socket c) /\
  socket.reading (m_socket c') = socket.reading (m_socket c) /\
  history c'
  = history c ++ [reply_text (m_instance c) (m_request c) (int_wrap (m_reply c + 1))] /\
  prefix (wire c) (wire c') /\
  (m_closed c = true -> wire c' = wire c /\
                        m_reply_queue c' = m_reply_queue (queued c)).
Proof.
  intros c'. subst c'. rewrite queue_reply_queued.
  destruct (process_replies_frame (queued c))
    as (H1 & H2 & H3 & H4 & H5 & H6 & H7 & H8 & H9).
  repeat split; try assumption.
  - rewrite process_replies_history. unfold history.
    rewrite queued_pending, app_assoc. reflexivity.
  - apply (process_replies_wire (queued c)).
  - rewrite process_replies_closed; auto.
  - rewrite process_replies_closed; auto.
Qed.

(** The effect of one byte: nothing is written or queued, or exactly one
    reply is created, numbered one above the last. *)
Lemma feed_byte_effect (c : t) (p : ascii) :
  let c' := feed_byte c p in
  m_instance c' = m_instance c /\
  m_closed c' = m_closed c /\
  socket.is_open (m_socket c') = socket.is_open (m_socket c) /\
  socket.reading (m_socket c') = socket.reading (m_socket c) /\
  prefix (wire c) (wire c') /\
  (m_closed c = true -> wire c' = wire c) /\
  ((history c' = history c /\ m_reply c' = m_reply c) \/
   (history c'
    = history c ++ [reply_text (m_instance c) (m_request c) (int_wrap (m_reply c + 1))]
    /\ m_reply c' = int_wrap (m_reply c + 1))).
Proof.
  intros c'. subst c'. unfold feed_byte. cbn [m_eom m_header set_parsers].
  destruct (parser.matched (parser.feed (m_eom c) p)).
  - match goal with |- context [queue_reply ?x] =>
      destruct (queue_reply_effect x)
        as (H1 & H2 & H3 & _ & _ & _ & _ & H8 & H9 & H10 & H11 & H12)
    end.
    cbn in *. repeat split; try assumption.
    + intros Hc. now apply H12.
    + right. split; assumption.
  - destruct (header.matched (header.feed (m_header c) p)).
    + destruct (bytes_eqb _ _); [|destruct (bytes_eqb _ _)];
        cbn; repeat split; auto using prefix_refl.
    + cbn; repeat split; auto using prefix_refl.
Qed.

End Handlers.

(** ** Runs of the event loop on one connection *)

Section Runs.

Import tcp_connection.

Lemma numbered_app inst k a b :
  numbered inst k (a ++ b)
  = numbered inst k a ++ numbered inst (count_up k (length a)) b.
Proof.
  revert k. induction a as [|q a IH]; intros k; simpl; [reflexivity|].
  now rewrite IH.
Qed.

Lemma count_up_add k n m : count_up k (n + m) = count_up (count_up k n) m.
Proof. revert k. induction n as [|n IH]; intros k; simpl; auto. Qed.

Lemma numbered_nth inst k reqs j text :
  0 <= k -> k + Z.of_nat j < INT_MAX ->
  nth_error (numbered inst k reqs) j = Some text ->
  exists q, nth_error reqs j = Some q /\
            text = reply_text inst q (k + Z.of_nat j + 1).
Proof.
  revert k j. induction reqs as [|q reqs IH]; intros k j Hk Hj Hn.
  - destruct j; discriminate.
  - assert (Hw : int_wrap (k + 1) = k + 1)
      by (apply int_wrap_small; unfold INT_MIN, INT_MAX in *; lia).
    simpl in Hn. rewrite Hw in Hn. destruct j as [|j]; simpl in Hn.
    + injection Hn as <-. exists q. split; [reflexivity|].
      f_equal. simpl. lia.
    + destruct (IH (k + 1) j ltac:(lia) ltac:(lia) Hn) as (q' & Hq' & ->).
      exists q'. split; [exact Hq'|]. f_equal. lia.
Qed.

Lemma int_wrap_succ (a : Z) : int_wrap (int_wrap a + 1) = int_wrap (a + 1).
Proof.
  unfold int_wrap.
  replace ((a - INT_MIN) mod 2 ^ 32 + INT_MIN + 1 - INT_MIN)
    with ((a - INT_MIN) mod 2 ^ 32 + 1) by ring.
  rewrite Zplus_mod_idemp_l. do 2 f_equal. ring.
Qed.

Lemma count_up_wrap (n : nat) (a : Z) :
  count_up (int_wrap a) n = int_wrap (a + Z.of_nat n).
Proof.
  revert a. induction n as [|n IH]; intros a.
  - simpl. now rewrite Z.add_0_r.
  - cbn [count_up]. rewrite int_wrap_succ, IH. f_equal. lia.
Qed.

Lemma numbered_nth_error inst (reqs : list Z) :
  forall k j,
    nth_error (numbered inst k reqs) j
    = option_map (fun q => reply_text inst q (count_up k (S j)))
                 (nth_error reqs j).
Proof.
  induction reqs as [|q reqs IH]; intros k j.
  - destruct j; reflexivity.
  - destruct j as [|j]; [reflexivity|]. simpl. apply IH.
Qed.

Lemma feed_bytes_effect (data : bytes) (c : t) :
  exists reqs,
    let c' := feed_bytes c data in
    m_instance c' = m_instance c /\
    m_reply c' = count_up (m_reply c) (length reqs) /\
    m_closed c' = m_closed c /\
    socket.is_open (m_socket c') = socket.is_open (m_socket c) /\
    socket.reading (m_socket c') = socket.reading (m_socket c) /\
    prefix (wire c) (wire c') /\
    (m_closed c = true -> wire c' = wire c) /\
    history c' = history c ++ numbered (m_instance c) (m_reply c) reqs /\
    (length reqs <= length data)%nat.
Proof.
  revert c. induction data as [|p data IH]; intros c.
  - exists []. simpl. rewrite app_nil_r.
    repeat split; auto using prefix_refl.
  - destruct (feed_byte_effect c p) as (H1 & H2 & H3 & H4 & H5 & H6 & H7).
    destruct (IH (feed_byte c p))
      as (reqs & I1 & I2 & I3 & I4 & I5 & I6 & I7 & I8 & I9).
    change (feed_bytes c (p :: data)) with (feed_bytes (feed_byte c p) data).
    destruct H7 as [[Hh Hr] | [Hh Hr]].
    + exists reqs. cbv zeta in *.
      rewrite I1, I2, I3, I4, I5, I8, H1, H2, H3, H4, Hh, Hr.
      repeat split; auto.
      * eapply prefix_trans; eassumption.
      * intros Hc. rewrite I7, H6; auto. congruence.
      * simpl. lia.
    + exists (m_request c :: reqs). cbv zeta in *.
      rewrite I1, I2, I3, I4, I5, I8, H1, H2, H3, H4, Hh, Hr.
      repeat split; auto.
      * eapply prefix_trans; eassumption.
      * intros Hc. rewrite I7, H6; auto. congruence.
      * now rewrite <- app_assoc.
      * simpl. lia.
Qed.

Lemma extends_refl (c : t) : extends c c [].
Proof.
  unfold extends. simpl. rewrite app_nil_r.
  repeat split; auto using prefix_refl. apply prefix_app.
Qed.

Lemma extends_trans c1 c2 c3 r1 r2 :
  extends c1 c2 r1 -> extends c2 c3 r2 ->
  exists r, extends c1 c3 r.
Proof.
  intros (A1 & A2 & A3 & A4 & A5 & A6) (B1 & B2 & B3 & B4 & B5 & B6).
  exists (r1 ++ r2). unfold extends.
  rewrite length_app, count_up_add, <- A2, numbered_app, <- A2, app_assoc.
  rewrite A1 in B4, B5.
  split; [congruence|]. split; [exact B2|].
  split; [eapply prefix_trans; eassumption|].
  split; [|split].
  - destruct (m_closed c2) eqn:Hc2.
    + destruct (B6 eq_refl) as [_ ->].
      eapply prefix_trans; [exact A4|apply prefix_app].
    + destruct (A5 eq_refl) as [_ <-]. exact B4.
  - intros Hc3. destruct (B5 Hc3) as [Hc2 ->].
    destruct (A5 Hc2) as [Hc1 ->]. auto.
  - intros Hc1. destruct (A6 Hc1) as [Hc2 <-]. auto.
Qed.

End Runs.

Section Steps.

Import tcp_connection.

Lemma handle_read_extends (c : t) (e : error_code) (data : bytes) :
  exists reqs, extends c (handle_read c e data) reqs /\
               (length reqs <= length data)%nat.
Proof.
  unfold handle_read. destruct (negb (failed e)).
  - destruct (feed_bytes_effect data (set_socket c (socket.read_done (m_socket c))))
      as (reqs & H1 & H2 & H3 & H4 & H5 & H6 & H7 & H8 & H9).
    exists reqs. split; [|exact H9].
    set (c1 := feed_bytes (set_socket c (socket.read_done (m_socket c))) data) in *.
    unfold extends, history, wire, pending in *. cbn in *.
    repeat split; auto.
    + rewrite <- H8. apply prefix_app.
    + congruence.
    + congruence.
  - exists []. split; [|simpl; lia]. destruct (negb (e =? operation_aborted)).
    + unfold extends. cbn. rewrite app_nil_r.
      repeat split; auto using prefix_refl; try discriminate.
      apply prefix_app.
    + apply (extends_refl c).
Qed.

Lemma process_replies_extends (c c1 : t) :
  m_instance c1 = m_instance c -> m_reply c1 = m_reply c ->
  m_closed c1 = m_closed c -> wire c1 = wire c -> history c1 = history c ->
  extends c (process_replies c1) [].
Proof.
  intros Ei Er Ec Ew Eh.
  destruct (process_replies_frame c1) as (H1 & H2 & H3 & _).
  pose proof (process_replies_history c1) as Hh.
  pose proof (process_replies_wire c1) as Hw.
  unfold extends. cbn [length count_up numbered].
  rewrite app_nil_r, H1, H2, H3, Hh, Eh, Ei, Er, Ec.
  repeat split; auto.
  - now rewrite <- Ew.
  - rewrite <- Eh, <- Hh. apply prefix_app.
  - rewrite process_replies_closed; [exact Ew|congruence].
Qed.

Lemma timed_out_extends (c c' : t) (i : nat) (e : error_code) :
  timed_out c i e = Some c' -> extends c c' [].
Proof.
  unfold timed_out. destruct (negb (failed e)).
  - destruct (nth_error (m_reply_queue c) i) as [r|].
    + destruct (Reply.is_sleeping r); [|discriminate].
      intros [= <-]. apply process_replies_extends; try reflexivity.
      unfold history, pending. cbn. now rewrite awake_at_str.
    + intros [= <-]. now apply process_replies_extends.
  - intros [= <-]. apply extends_refl.
Qed.

Lemma step_extends (c c' : t) (ev : event) :
  step c ev = Some c' -> exists reqs, extends c c' reqs.
Proof.
  destruct ev as [e data | e n | i e]; simpl.
  - destruct (socket.reading (m_socket c)); [|discriminate].
    intros [= <-]. destruct (handle_read_extends c e data) as (reqs & H & _).
    now exists reqs.
  - intros [= <-]. exists []. apply extends_refl.
  - intros H. exists []. eapply timed_out_extends; eassumption.
Qed.

Lemma run_extends (evs : list event) (c c' : t) :
  run c evs = Some c' -> exists reqs, extends c c' reqs.
Proof.
  revert c. induction evs as [|ev evs IH]; intros c; simpl.
  - intros [= <-]. exists []. apply extends_refl.
  - destruct (step c ev) as [c1|] eqn:Hs; [|discriminate].
    intros Hr. destruct (step_extends _ _ _ Hs) as (r1 & H1).
    destruct (IH _ Hr) as (r2 & H2).
    eapply extends_trans; eassumption.
Qed.

End Steps.

(** ** Requests, line by line *)

Section RequestLines.

Import tcp_connection.

Lemma parser_feed_other (n : nat) (c : ascii) :
  (n < 4)%nat -> negb (is_eol c) = true -> parser.feed (eom_at n) c = eom_at 0.
Proof.
  intros Hn Hc. apply is_eol_false in Hc. destruct Hc as [Hcr Hlf].
  unfold parser.feed, parser.deref.
  destruct n as [|[|[|[|n]]]]; try lia; simpl nth;
    change (nth 0 (CRLF ++ CRLF) NUL) with CR;
    rewrite ?Hcr, ?Hlf; reflexivity.
Qed.

Lemma feed_byte_quiet (c : t) (p : ascii) :
  parser.matched (parser.feed (m_eom c) p) = false ->
  header.matched (header.feed (m_header c) p) = false ->
  feed_byte c p
  = set_parsers c (parser.feed (m_eom c) p) (header.feed (m_header c) p).
Proof.
  intros He Hh. unfold feed_byte. cbn [m_eom m_header set_parsers].
  now rewrite He, Hh.
Qed.

Lemma feed_bytes_app (c : t) (a b : bytes) :
  feed_bytes c (a ++ b) = feed_bytes (feed_bytes c a) b.
Proof. apply fold_left_app. Qed.

Lemma feed_bytes_cons (c : t) (p : ascii) (s : bytes) :
  feed_bytes c (p :: s) = feed_bytes (feed_byte c p) s.
Proof. reflexivity. Qed.

(** Bytes that are neither CR nor LF only move the two parsers. *)
Lemma feed_bytes_content (s : bytes) :
  forall (c : t) (n : nat),
    (n < 4)%nat -> m_eom c = eom_at n -> no_eol s = true ->
    feed_bytes c s
    = set_parsers c (match s with [] => m_eom c | _ :: _ => eom_at 0 end)
                    (header.feed_all (m_header c) s).
Proof.
  induction s as [|p s IH]; intros c n Hn He Hs.
  - destruct c. reflexivity.
  - apply forallb_cons_true in Hs. destruct Hs as [Hp Hs].
    rewrite feed_bytes_cons, feed_byte_quiet.
    + rewrite He, (parser_feed_other n p Hn Hp).
      rewrite (IH _ 0%nat); [|lia|reflexivity|exact Hs].
      destruct s; reflexivity.
    + now rewrite He, (parser_feed_other n p Hn Hp).
    + apply matched_only_on_lf. now apply is_eol_false in Hp.
Qed.

Lemma line_bytes_content (l : line) :
  line_bytes l = line_content l ++ [CR] ++ [LF].
Proof.
  destruct l; simpl; repeat (progress (simpl; rewrite <- ?app_assoc));
    reflexivity.
Qed.

Lemma line_content_ok (l : line) :
  line_ok l = true ->
  no_eol (line_content l) = true /\ line_content l <> [].
Proof.
  intros Hok.
  destruct l as [k v | k rest | txt]; simpl in Hok;
    repeat (apply andb_true_iff in Hok; destruct Hok as [Hok ?]);
    (split; [|destruct k || destruct txt; discriminate]);
    unfold no_eol in *; simpl; rewrite ?forallb_app; simpl;
    repeat match goal with
           | H : forallb _ _ = true |- _ => rewrite H; clear H
           end; reflexivity.
Qed.

(** One line: the parsers move on, and a [KEY: VALUE] line with one of
    the two keys stores its value. *)
Lemma feed_line (c : t) (l : line) :
  at_line_start c -> line_ok l = true ->
  feed_bytes c (line_bytes l) = after_lines c [l].
Proof.
  intros [(n & Hn & He) Hh] Hok.
  destruct (line_content_ok l Hok) as [Hcont Hne].
  pose proof (header_feed_line (m_header c) l Hh Hok) as Hline.
  rewrite line_bytes_content in Hline |- *.
  rewrite !header_feed_all_app in Hline.
  rewrite !feed_bytes_app, (feed_bytes_content _ c n Hn He Hcont).
  destruct (line_content l) as [|p0 s0] eqn:Econt; [contradiction|].
  rewrite <- Econt in *. clear Econt p0 s0.
  set (h1 := header.feed_all (m_header c) (line_content l)) in *.
  change (header.feed_all h1 [CR]) with (header.feed h1 CR) in Hline.
  change (header.feed_all (header.feed h1 CR) [LF])
    with (header.feed (header.feed h1 CR) LF) in Hline.
  change (feed_bytes (set_parsers c (eom_at 0) h1) [CR])
    with (feed_byte (set_parsers c (eom_at 0) h1) CR).
  rewrite feed_byte_quiet;
    [|reflexivity|apply matched_only_on_lf; reflexivity].
  cbn [m_eom m_header set_parsers].
  change (parser.feed (eom_at 0) CR) with (eom_at 1).
  match goal with |- feed_bytes ?x [LF] = _ =>
    change (feed_bytes x [LF]) with (feed_byte x LF) end.
  unfold feed_byte. cbn [m_eom m_header set_parsers].
  change (parser.feed (eom_at 1) LF) with (eom_at 2).
  rewrite Hline. cbn [parser.matched parser.m_match eom_at].
  unfold after_lines, lines_sleep, lines_request. cbn [fold_left].
  destruct l as [k v | k rest | txt]; cbn;
    repeat match goal with
           | |- context [bytes_eqb ?a ?b] => destruct (bytes_eqb a b)
           end; reflexivity.
Qed.

Lemma after_lines_start (c : t) (l : line) : at_line_start (after_lines c [l]).
Proof.
  split.
  - exists 2%nat. split; [lia|reflexivity].
  - apply line_header_start.
Qed.

Lemma after_lines_cons (c : t) (l : line) (ls : list line) :
  after_lines c (l :: ls) = after_lines (after_lines c [l]) ls.
Proof. reflexivity. Qed.

Lemma feed_lines (ls : list line) :
  forall c : t,
    at_line_start c -> forallb line_ok ls = true ->
    feed_bytes c (concat (map line_bytes ls)) = after_lines c ls.
Proof.
  induction ls as [|l ls IH]; intros c Hc Hok.
  - destruct c. reflexivity.
  - apply forallb_cons_true in Hok. destruct Hok as [Hl Hls].
    simpl concat. rewrite feed_bytes_app, (feed_line c l Hc Hl).
    rewrite IH; [|apply after_lines_start|exact Hls].
    now rewrite <- after_lines_cons.
Qed.

Lemma at_boundary_line_start (c : t) : at_boundary c -> at_line_start c.
Proof.
  intros (He & Hh & _). split.
  - exists 0%nat. split; [lia|exact He].
  - left. exact Hh.
Qed.

Lemma fold_eom (ls : list line) (e : parser.t) :
  ls <> [] -> fold_left (fun _ _ => eom_at 2) ls e = eom_at 2.
Proof.
  destruct ls as [|l ls]; [contradiction|]. intros _. simpl.
  induction ls as [|l' ls IH]; simpl; auto.
Qed.

(** One request: its lines and the empty line. One reply is created, from
    what the lines stored, and the connection is at a boundary again. *)
Lemma feed_request (c : t) (ls : list line) :
  at_line_start c -> forallb line_ok ls = true -> ls <> [] ->
  feed_bytes c (request_bytes ls)
  = answered c (lines_sleep ls (m_sleep c)) (lines_request ls (m_request c)).
Proof.
  intros Hc Hok Hne. unfold request_bytes.
  rewrite feed_bytes_app, (feed_lines ls c Hc Hok).
  change CRLF with [CR; LF]. rewrite !feed_bytes_cons.
  assert (E1 : m_eom (after_lines c ls) = eom_at 2).
  { unfold after_lines. cbn [m_eom]. now rewrite (fold_eom ls _ Hne). }
  assert (S1 : feed_byte (after_lines c ls) CR
               = set_parsers (after_lines c ls) (eom_at 3)
                   (header.feed (m_header (after_lines c ls)) CR)).
  { rewrite feed_byte_quiet; rewrite ?E1; try reflexivity.
    apply matched_only_on_lf. reflexivity. }
  rewrite S1. unfold feed_byte. cbn [m_eom m_header set_parsers].
  change (parser.feed (eom_at 3) LF) with (parser.mk (CRLF ++ CRLF) true 4).
  cbn [parser.matched parser.m_match feed_bytes fold_left].
  reflexivity.
Qed.

Lemma answered_effect (c : t) (sleep request : Z) :
  let c' := answered c sleep request in
  history c'
  = history c ++ [reply_text (m_instance c) request (int_wrap (m_reply c + 1))] /\
  at_boundary c' /\
  m_instance c' = m_instance c /\
  m_reply c' = int_wrap (m_reply c + 1) /\
  m_closed c' = m_closed c.
Proof.
  unfold answered.
  match goal with |- context [queue_reply ?x] =>
    destruct (queue_reply_effect x)
      as (H1 & H2 & H3 & H4 & H5 & H6 & H7 & H8 & H9 & H10 & H11 & H12);
    set (c1 := queue_reply x) in *
  end.
  cbn in *. unfold at_boundary. cbn.
  repeat split; auto.
Qed.

Lemma lines_request_app (a b : list line) (z : Z) :
  lines_request (a ++ b) z = lines_request b (lines_request a z).
Proof. apply fold_left_app. Qed.

Lemma lines_sleep_app (a b : list line) (z : Z) :
  lines_sleep (a ++ b) z = lines_sleep b (lines_sleep a z).
Proof. apply fold_left_app. Qed.

Lemma lines_request_other (ls : list line) (z : Z) :
  forallb (fun l => negb (has_key (lit "X-Request") l)) ls = true ->
  lines_request ls z = z.
Proof.
  revert z. induction ls as [|l ls IH]; intros z H; [reflexivity|].
  apply forallb_cons_true in H. destruct H as [Hl Hls].
  unfold lines_request in *. simpl. rewrite (IH _ Hls).
  destruct l as [k v| |]; simpl in *; try reflexivity.
  apply negb_true_iff in Hl. rewrite Hl.
  match goal with |- (if ?b then _ else _) = _ => destruct b end; reflexivity.
Qed.

End RequestLines.

(** * The claims *)

Section Claims.

Import tcp_connection.

Lemma quiet_after_close (c c' : t) (ev : event) :
  m_closed c = true -> socket.reading (m_socket c) = false ->
  m_reply_queue c = [] ->
  step c ev = Some c' -> c' = c.
Proof.
  intros Hc Hr Hq. destruct ev as [e data | e n | i e]; simpl.
  - now rewrite Hr.
  - now intros [= <-].
  - unfold timed_out. rewrite Hq. destruct (negb (failed e)).
    + rewrite (process_replies_closed c Hc). destruct i; now intros [= <-].
    + now intros [= <-].
Qed.

Lemma quiet_run_after_close (evs : list event) (c c' : t) :
  m_closed c = true -> socket.reading (m_socket c) = false ->
  m_reply_queue c = [] ->
  run c evs = Some c' -> c' = c.
Proof.
  intros Hc Hr Hq. induction evs as [|ev evs IH]; simpl.
  - now intros [= <-].
  - destruct (step c ev) as [c1|] eqn:Hs; [|discriminate].
    rewrite (quiet_after_close _ _ _ Hc Hr Hq Hs). exact IH.
Qed.

(** C1. Over any run of the handlers of a connection, the sequence
    "written, then queued" only grows at its end, by the replies created
    during the run, and what is written is always a front segment of it:
    replies reach the socket in their creation order. A flush writes and
    pops a front segment of the queue whose replies are all awake, and a
    sleeping front reply stops it, whatever waits behind. *)
Theorem replies_written_in_creation_order :
  (forall (c : t) (evs : list event) (c' : t),
      run c evs = Some c' ->
      exists reqs,
        let created := numbered (m_instance c) (m_reply c) reqs in
        prefix (wire c) (wire c') /\
        prefix (wire c') (wire c ++ pending c ++ created) /\
        (m_closed c' = false ->
         wire c' ++ pending c' = wire c ++ pending c ++ created)) /\
  (forall c : t, exists n,
      m_reply_queue (process_replies c) = skipn n (m_reply_queue c) /\
      wire (process_replies c)
        = wire c ++ map Reply.str (firstn n (m_reply_queue c)) /\
      forallb (fun r => negb (Reply.is_sleeping r))
              (firstn n (m_reply_queue c)) = true) /\
  (forall (c : t) r q,
      m_reply_queue c = r :: q -> Reply.is_sleeping r = true ->
      process_replies c = c).
Proof.
  split; [|split].
  - intros c evs c' Hrun.
    destruct (run_extends _ _ _ Hrun) as (reqs & _ & _ & H3 & H4 & H5 & _).
    exists reqs. cbv zeta. unfold history in *.
    rewrite <- app_assoc in H4, H5.
    repeat split; auto. intros Hc. now apply H5.
  - exact process_replies_front.
  - exact process_replies_blocked.
Qed.

Lemma step_closed_inv (c c' : t) (ev : event) :
  closed_inv c -> step c ev = Some c' -> closed_inv c'.
Proof.
  intros Hinv Hs. destruct (m_closed c) eqn:Hc.
  - destruct (Hinv Hc) as [Hr Hq].
    now rewrite (quiet_after_close _ _ _ Hc Hr Hq Hs).
  - destruct ev as [e data | e n | i e]; simpl in Hs.
    + destruct (socket.reading (m_socket c)); [|discriminate].
      injection Hs as <-. unfold handle_read.
      destruct (negb (failed e)).
      * destruct (feed_bytes_effect data
                    (set_socket c (socket.read_done (m_socket c))))
          as (reqs & _ & _ & H3 & _).
        cbn in H3. intros H. cbn in H. congruence.
      * destruct (negb (e =? operation_aborted)).
        -- intros _. cbn. auto.
        -- intros H. cbn in H. congruence.
    + injection Hs as <-. intros H. unfold handle_write in H. congruence.
    + destruct (timed_out_extends _ _ _ _ Hs) as (_ & _ & _ & _ & _ & H6).
      unfold timed_out in Hs. destruct (negb (failed e)).
      * destruct (nth_error (m_reply_queue c) i) as [r|].
        -- destruct (Reply.is_sleeping r); [|discriminate].
           injection Hs as <-.
           destruct (process_replies_frame
                       (set_queue c (awake_at (m_reply_queue c) i)))
             as (_ & _ & H3 & _).
           cbn in H3. intros H. congruence.
        -- injection Hs as <-.
           destruct (process_replies_frame c) as (_ & _ & H3 & _).
           intros H. congruence.
      * injection Hs as <-. intros H. congruence.
Qed.

Lemma run_closed_inv (evs : list event) (c c' : t) :
  closed_inv c -> run c evs = Some c' -> closed_inv c'.
Proof.
  revert c. induction evs as [|ev evs IH]; intros c Hinv; simpl.
  - now intros [= <-].
  - destruct (step c ev) as [c1|] eqn:Hs; [|discriminate].
    apply IH. eapply step_closed_inv; eassumption.
Qed.

Lemma nth_error_prefix {A} (a b : list A) (k : nat) (x : A) :
  prefix a b -> nth_error a k = Some x -> nth_error b k = Some x.
Proof.
  intros [r ->] H. rewrite nth_error_app1; [exact H|].
  apply nth_error_Some. congruence.
Qed.

(** C4. On a connection the listener started, the reply at position [k]
    (from 0) of "written, then queued" carries X-Reply [k + 1], as long as
    the [int] counter has not run out. *)
Theorem reply_counter_counts_from_one :
  forall (inst : Z) (evs : list event) (c : t) (k : nat) (text : bytes),
    run (start (accept (create inst))) evs = Some c ->
    Z.of_nat k < INT_MAX ->
    nth_error (wire c ++ pending c) k = Some text ->
    exists q, text = reply_text inst q (Z.of_nat k + 1).
Proof.
  intros inst evs c k text Hrun Hk Hn.
  destruct (run_extends _ _ _ Hrun) as (reqs & _ & _ & _ & H4 & H5 & _).
  cbn in H4, H5.
  assert (Hin : prefix (wire c ++ pending c) (numbered inst 0 reqs)).
  { destruct (m_closed c) eqn:Hc.
    - assert (Hinv : closed_inv c).
      { eapply run_closed_inv; [|exact Hrun]. intros H. discriminate. }
      destruct (Hinv Hc) as [_ Hq]. unfold pending. rewrite Hq. simpl.
      now rewrite app_nil_r.
    - destruct (H5 eq_refl) as [_ H]. unfold history in H. rewrite H.
      apply prefix_refl. }
  pose proof (nth_error_prefix _ _ _ _ Hin Hn) as Hn'.
  destruct (numbered_nth inst 0 reqs k text ltac:(lia) ltac:(lia) Hn')
    as (q & _ & ->).
  exists q. f_equal.
Qed.

Lemma handle_read_failed (c : t) (e : error_code) (data : bytes) :
  e <> success -> e <> operation_aborted ->
  handle_read c e data
  = set_closed
      (set_socket (set_queue (set_socket c (socket.read_done (m_socket c))) [])
                  (socket.close (socket.read_done (m_socket c))))
      true.
Proof.
  intros He Ha. unfold handle_read, failed, success, operation_aborted in *.
  destruct (e =? 0) eqn:E0; [apply Z.eqb_eq in E0; contradiction|].
  destruct (e =? 125) eqn:E1; [apply Z.eqb_eq in E1; contradiction|].
  reflexivity.
Qed.

(** C7. A read that completes with an error other than cancellation
    empties the reply queue, closes the socket and leaves no read
    outstanding; what was written stays as it was, and no handler that can
    still run changes the connection: nothing is queued or written
    afterwards. *)
Theorem read_error_discards_queue :
  forall (c : t) (e : error_code) (data : bytes),
    e <> success -> e <> operation_aborted ->
    let c' := handle_read c e data in
    m_reply_queue c' = [] /\
    m_closed c' = true /\
    socket.is_open (m_socket c') = false /\
    socket.reading (m_socket c') = false /\
    wire c' = wire c /\
    (forall evs c'', run c' evs = Some c'' -> c'' = c').
Proof.
  intros c e data He Ha c'. subst c'.
  rewrite (handle_read_failed c e data He Ha). cbn. repeat split.
  intros evs c''. apply quiet_run_after_close; reflexivity.
Qed.


(** C9, as the code has it. Whatever the command line is, the server
    listens on port 9001, also after any number of accepts. *)
Theorem listening_port_is_fixed :
  forall (argv : list bytes) (errors : list error_code),
    tcp_server.m_acceptor_port
      (fold_left (fun srv e => snd (tcp_server.handle_accept srv e))
                 errors (main argv)) = 9001.
Proof.
  intros argv errors. unfold main.
  assert (H : tcp_server.m_acceptor_port tcp_server.create = 9001) by reflexivity.
  revert H. generalize tcp_server.create.
  induction errors as [|e errors IH]; intros srv H; simpl; [exact H|].
  apply IH. simpl. exact H.
Qed.

(** C9, as the claim has it: a port given with a flag is not the port the
    server listens on. *)
Lemma port_flag_has_no_effect :
  tcp_server.m_acceptor_port (main [lit "./http_server"; lit "-p"; lit "8080"])
  = tcp_server.m_acceptor_port (main [lit "./http_server"]) /\
  tcp_server.m_acceptor_port (main [lit "./http_server"; lit "-p"; lit "8080"])
  <> 8080.
Proof. split; [reflexivity|discriminate]. Qed.

(** C2, at the failing input: the five bytes CR CR LF CR LF end with an
    occurrence of the boundary, and the matcher reports nothing on any of
    them, so the connection creates no reply. *)
Theorem boundary_after_stray_cr_is_missed :
  let S := CRLF ++ CRLF in
  let input := [CR; CR; LF; CR; LF] in
  input = [CR] ++ S /\
  map (fun n => parser.matched
                  (parser.feed_all (parser.create S) (firstn n input)))
      [1; 2; 3; 4; 5]%nat
  = [false; false; false; false; false] /\
  history (feed_bytes (start (accept (create 1))) input) = [].
Proof. repeat split. Qed.

(** C10. The reply [queue_reply] creates is a header block that ends in
    an empty line, followed by a body; the number printed after
    Content-Length is the length of that body in bytes, which is the
    length of the reply text plus 27. *)
Theorem content_length_is_body_length :
  forall c : t,
    let inst := m_instance c in
    let req := m_request c in
    let rep := int_wrap (m_reply c + 1) in
    let text :=
      lit "Reply " ++ print_int rep ++ lit " on connection " ++ print_int inst
        ++ lit " for request #" ++ print_ulong req in
    let body := lit "<html><body>" ++ text ++ lit "</body></html>" ++ [LF] in
    let head :=
      lit "HTTP/1.1 200 OK" ++ CRLF ++
      lit "Keep-Alive: timeout=10 max=400" ++ CRLF ++
      lit "Content-Length: " ++ print_ulong (Z.of_nat (length body)) ++ CRLF ++
      lit "Content-Type: text/html" ++ CRLF ++
      lit "X-Connection: " ++ print_int inst ++ CRLF ++
      lit "X-Request: " ++ print_ulong req ++ CRLF ++
      lit "X-Reply: " ++ print_int rep ++ CRLF ++
      CRLF in
    wire (queue_reply c) ++ pending (queue_reply c)
    = wire c ++ pending c ++ [head ++ body] /\
    length body = (length text + 27)%nat.
Proof.
  intros c inst req rep text body head.
  assert (Hlen : length body = (length text + 27)%nat).
  { subst body. rewrite !length_app. simpl. lia. }
  split; [|exact Hlen].
  destruct (queue_reply_effect c) as (_ & _ & _ & _ & _ & _ & _ & _ & _ & H & _).
  unfold history in H. rewrite H, <- app_assoc. do 3 f_equal.
  fold inst req rep. rewrite reply_text_unfold, body_text_unfold. fold text.
  assert (Hw : ulong_wrap (Z.of_nat (length text) + 27) = Z.of_nat (length body)).
  { pose proof (body_text_length rep inst req) as Hb.
    rewrite body_text_unfold in Hb. fold text in Hb.
    rewrite Hlen. unfold ulong_wrap. rewrite Z.mod_small; lia. }
  rewrite Hw. subst head body.
  rewrite <- !app_assoc. reflexivity.
Qed.

Lemma read_digits_numeral (v : bytes) :
  forall (acc : Z) (any : bool),
    forallb isdigit v = true ->
    read_digits v acc any
    = (fold_left (fun a c => a * 10 + digit_val c) v acc,
       (any || nonempty_bytes v)%bool).
Proof.
  induction v as [|c v IH]; intros acc any Hv.
  - cbn. now rewrite orb_false_r.
  - apply forallb_cons_true in Hv. destruct Hv as [Hc Hv].
    cbn [read_digits fold_left nonempty_bytes]. rewrite Hc, (IH _ _ Hv).
    now rewrite orb_true_r.
Qed.

Lemma numeral_value_nonneg (v : bytes) : 0 <= numeral_value v.
Proof.
  assert (H : forall a, 0 <= a ->
                0 <= fold_left (fun a c => a * 10 + digit_val c) v a).
  { induction v as [|c v IH]; intros a Ha; [exact Ha|].
    cbn [fold_left]. apply IH. unfold digit_val. lia. }
  apply H. lia.
Qed.

(** [strtoul] on a decimal numeral: its value, or [ULONG_MAX] when that
    does not fit. *)
Lemma strtoul_numeral (v : bytes) :
  decimal_numeral v = true -> strtoul v = Z.min (numeral_value v) ULONG_MAX.
Proof.
  unfold decimal_numeral. intros H. apply andb_true_iff in H.
  destruct H as [Hne Hv]. destruct v as [|c v]; [discriminate|].
  pose proof (forallb_cons_true _ _ _ Hv) as [Hc _].
  destruct (isdigit_not_space_or_sign c Hc) as (Hs & Hm & Hp).
  unfold strtoul. cbn [skip_space]. rewrite Hs, Hm, Hp.
  rewrite (read_digits_numeral _ 0 false Hv). cbn [orb nonempty_bytes negb].
  fold (numeral_value (c :: v)).
  destruct (ULONG_MAX <? numeral_value (c :: v)) eqn:E.
  - apply Z.ltb_lt in E. lia.
  - apply Z.ltb_ge in E. lia.
Qed.

(** What [%lu] prints is a decimal numeral that stands for the number
    printed. *)
Lemma numeral_value_print_ulong (n : Z) :
  0 <= n <= ULONG_MAX ->
  decimal_numeral (print_ulong n) = true /\ numeral_value (print_ulong n) = n.
Proof.
  intros Hn. unfold print_ulong.
  destruct (digits_of_read 19 n []) as (D & HD & Hne & Hall & Hread).
  { unfold ULONG_MAX in Hn. change (10 ^ Z.of_nat 20) with 100000000000000000000. lia. }
  rewrite HD, app_nil_r.
  assert (HDd : forallb isdigit D = true).
  { apply forallb_forall. now apply Forall_forall. }
  split.
  - unfold decimal_numeral. rewrite HDd. destruct D; [contradiction|reflexivity].
  - specialize (Hread [] 0 false). rewrite app_nil_r in Hread.
    rewrite (read_digits_numeral D 0 false HDd) in Hread.
    cbn [read_digits] in Hread. injection Hread as Hread _.
    unfold numeral_value. lia.
Qed.

(** The reply text, spelled out. *)
Lemma reply_text_spelled_out (inst req rep : Z) :
  let text :=
    lit "Reply " ++ print_int rep ++ lit " on connection " ++ print_int inst
      ++ lit " for request #" ++ print_ulong req in
  let body := lit "<html><body>" ++ text ++ lit "</body></html>" ++ [LF] in
  let head :=
    lit "HTTP/1.1 200 OK" ++ CRLF ++
    lit "Keep-Alive: timeout=10 max=400" ++ CRLF ++
    lit "Content-Length: " ++ print_ulong (Z.of_nat (length body)) ++ CRLF ++
    lit "Content-Type: text/html" ++ CRLF ++
    lit "X-Connection: " ++ print_int inst ++ CRLF ++
    lit "X-Request: " ++ print_ulong req ++ CRLF ++
    lit "X-Reply: " ++ print_int rep ++ CRLF ++
    CRLF in
  reply_text inst req rep = head ++ body.
Proof.
  intros text body head.
  assert (Hlen : length body = (length text + 27)%nat).
  { subst body. rewrite !length_app. simpl. lia. }
  rewrite reply_text_unfold, body_text_unfold. fold text.
  assert (Hw : ulong_wrap (Z.of_nat (length text) + 27) = Z.of_nat (length body)).
  { pose proof (body_text_length rep inst req) as Hb.
    rewrite body_text_unfold in Hb. fold text in Hb.
    rewrite Hlen. unfold ulong_wrap. rewrite Z.mod_small; lia. }
  rewrite Hw. subst head body.
  rewrite <- !app_assoc. reflexivity.
Qed.

(** C3, as the code has it. A request that starts at a boundary and whose
    last X-Request line has as its value a decimal numeral that stands for
    a number [n] up to [ULONG_MAX] creates one reply, and the X-Request
    line of that reply is [X-Request: ] followed by [n] in decimal: the
    reply is spelled out, header block and body; the digits printed stand
    for the number the digits of the request stand for. *)
Theorem reply_echoes_request_id :
  forall (c : t) (ls1 ls2 : list line) (v : bytes),
    at_boundary c ->
    forallb line_ok (ls1 ++ Field (lit "X-Request") v :: ls2) = true ->
    forallb (fun l => negb (has_key (lit "X-Request") l)) ls2 = true ->
    decimal_numeral v = true -> numeral_value v <= ULONG_MAX ->
    let echo := print_ulong (numeral_value v) in
    let inst := m_instance c in
    let rep := int_wrap (m_reply c + 1) in
    let text :=
      lit "Reply " ++ print_int rep ++ lit " on connection " ++ print_int inst
        ++ lit " for request #" ++ echo in
    let body := lit "<html><body>" ++ text ++ lit "</body></html>" ++ [LF] in
    let head :=
      lit "HTTP/1.1 200 OK" ++ CRLF ++
      lit "Keep-Alive: timeout=10 max=400" ++ CRLF ++
      lit "Content-Length: " ++ print_ulong (Z.of_nat (length body)) ++ CRLF ++
      lit "Content-Type: text/html" ++ CRLF ++
      lit "X-Connection: " ++ print_int inst ++ CRLF ++
      lit "X-Request: " ++ echo ++ CRLF ++
      lit "X-Reply: " ++ print_int rep ++ CRLF ++
      CRLF in
    let c' :=
      feed_bytes c (request_bytes (ls1 ++ Field (lit "X-Request") v :: ls2)) in
    wire c' ++ pending c' = wire c ++ pending c ++ [head ++ body] /\
    decimal_numeral echo = true /\ numeral_value echo = numeral_value v /\
    at_boundary c'.
Proof.
  intros c ls1 ls2 v Hb Hok Hlast Hv Hn echo inst rep text body head c'.
  pose proof (numeral_value_nonneg v) as Hn0.
  assert (Hc' : c' = answered c (lines_sleep (ls1 ++ Field (lit "X-Request") v :: ls2)
                                             (m_sleep c))
                                (numeral_value v)).
  { subst c'.
    rewrite (feed_request c _ (at_boundary_line_start c Hb) Hok);
      [|destruct ls1; discriminate].
    f_equal. rewrite lines_request_app.
    change (lines_request (Field (lit "X-Request") v :: ls2)
              (lines_request ls1 (m_request c)))
      with (lines_request ls2 (strtoul v)).
    rewrite (lines_request_other _ _ Hlast), (strtoul_numeral v Hv). lia. }
  destruct (answered_effect c (lines_sleep (ls1 ++ Field (lit "X-Request") v :: ls2)
                                           (m_sleep c)) (numeral_value v))
    as (H1 & H2 & _).
  rewrite <- Hc' in H1, H2. unfold history in H1. rewrite <- app_assoc in H1.
  destruct (numeral_value_print_ulong (numeral_value v)) as [Hd He]; [lia|].
  repeat split; try apply H2; try assumption.
  rewrite H1. do 3 f_equal. apply reply_text_spelled_out.
Qed.

(** C3, as the claim has it: the X-Request line of a request holds the
    integer 18446744073709551616, and the reply carries
    18446744073709551615. *)
Lemma oversized_request_id_is_not_echoed :
  let v := lit "18446744073709551616" in
  let c' :=
    feed_bytes (start (accept (create 1)))
      (request_bytes [Text (lit "GET / HTTP/1.1"); Field (lit "X-Request") v]) in
  decimal_numeral v = true /\ numeral_value v = 18446744073709551616 /\
  wire c' ++ pending c'
  = [lit "HTTP/1.1 200 OK" ++ CRLF ++
     lit "Keep-Alive: timeout=10 max=400" ++ CRLF ++
     lit "Content-Length: 84" ++ CRLF ++
     lit "Content-Type: text/html" ++ CRLF ++
     lit "X-Connection: 1" ++ CRLF ++
     lit "X-Request: 18446744073709551615" ++ CRLF ++
     lit "X-Reply: 1" ++ CRLF ++
     CRLF ++
     lit "<html><body>Reply 1 on connection 1 for request #18446744073709551615</body></html>"
     ++ [LF]].
Proof. vm_compute. repeat split. Qed.

(** C5, as the code has it. A line whose colon is not followed by a space
    and is not the first byte of a [KEY: VALUE] line (the colon that ends
    the key, which may itself start with a colon, or a colon that is the
    first byte of the line and its only one) never makes the extractor
    report a pair, and its line feed leaves the extractor reset. A request
    with such a line creates the reply its other lines call for, leaves
    the connection open or closed as it was and at a boundary, and leaves
    it in the state the request without that line would. *)
Theorem malformed_line_is_dropped :
  (forall (h : header.t) (l : line),
      line_start h -> line_ok l = true -> colon_without_space l = true ->
      (forall p q, line_bytes l = p ++ q -> p <> [] ->
                   header.matched (header.feed_all h p) = false) /\
      header.feed_all h (line_bytes l) = header.create) /\
  (forall (c : t) (ls1 ls2 : list line) (l : line),
      at_boundary c ->
      forallb line_ok (ls1 ++ l :: ls2) = true ->
      colon_without_space l = true ->
      let c' := feed_bytes c (request_bytes (ls1 ++ l :: ls2)) in
      wire c' ++ pending c'
      = wire c ++ pending c
        ++ [reply_text (m_instance c) (lines_request (ls1 ++ ls2) 0)
                       (int_wrap (m_reply c + 1))] /\
      m_closed c' = m_closed c /\
      at_boundary c' /\
      (ls1 ++ ls2 <> [] -> c' = feed_bytes c (request_bytes (ls1 ++ ls2)))).
Proof.
  split.
  - intros h l Hh Hok Hl.
    pose proof (header_feed_line h _ Hh Hok) as Hline.
    assert (El : line_header l = header.create) by (destruct l; [discriminate| |]; reflexivity).
    rewrite El in Hline.
    split; [|exact Hline].
    intros p q E Hp. destruct q as [|x q].
    + rewrite app_nil_r in E. subst p. now rewrite Hline.
    + eapply no_match_within_line; eauto. discriminate.
  - intros c ls1 ls2 l Hb Hok Hl c'.
    destruct Hb as (He & Hh & Hs & Hr).
    assert (Hls : at_line_start c).
    { apply at_boundary_line_start. repeat split; assumption. }
    assert (Hok' : forallb line_ok (ls1 ++ ls2) = true).
    { rewrite forallb_app in Hok |- *. simpl in Hok.
      apply andb_true_iff in Hok. destruct Hok as [H1 H2].
      apply andb_true_iff in H2. destruct H2 as [_ H2]. now rewrite H1, H2. }
    assert (Es : lines_sleep (ls1 ++ l :: ls2) (m_sleep c)
                 = lines_sleep (ls1 ++ ls2) (m_sleep c)).
    { rewrite !lines_sleep_app. destruct l; [discriminate| |]; reflexivity. }
    assert (Er : lines_request (ls1 ++ l :: ls2) (m_request c)
                 = lines_request (ls1 ++ ls2) (m_request c)).
    { rewrite !lines_request_app. destruct l; [discriminate| |]; reflexivity. }
    assert (Hc' : c' = answered c (lines_sleep (ls1 ++ ls2) (m_sleep c))
                                  (lines_request (ls1 ++ ls2) (m_request c))).
    { subst c'. rewrite (feed_request c _ Hls Hok); [|destruct ls1; discriminate].
      now rewrite Es, Er. }
    destruct (answered_effect c (lines_sleep (ls1 ++ ls2) (m_sleep c))
                                (lines_request (ls1 ++ ls2) (m_request c)))
      as (H1 & H2 & _ & _ & H5).
    rewrite <- Hc' in H1, H2, H5. unfold history in H1.
    rewrite <- app_assoc, Hr in H1.
    repeat split; try apply H2; try assumption.
    intros Hne. rewrite Hc', (feed_request c _ Hls Hok' Hne). reflexivity.
Qed.

(** C5, as the claim has it: the first colon of the line [:odd: 1] is not
    followed by a space, and the extractor reports a pair for the line,
    with the colon as the first byte of the key. *)
Lemma leading_colon_line_is_reported :
  let h := header.feed_all header.create (lit ":odd: 1" ++ CRLF) in
  (exists rest, lit ":odd: 1" = ":"%char :: rest /\ starts_with_space rest = false) /\
  header.matched h = true /\ header.key h = lit ":odd" /\ header.value h = lit "1".
Proof.
  split; [exists (lit "odd: 1"); split; reflexivity|].
  vm_compute. repeat split.
Qed.

(** C6, as the code has it. An X-Sleep or X-Request line whose value has
    no digit where [strtoul] looks for one stores 0. *)
Theorem value_without_digits_stores_zero :
  forall (c : t) (v : bytes),
    at_line_start c -> no_eol v = true -> no_digits v = true ->
    m_sleep (feed_bytes c (line_bytes (Field (lit "X-Sleep") v))) = 0 /\
    m_request (feed_bytes c (line_bytes (Field (lit "X-Request") v))) = 0.
Proof.
  intros c v Hc Hv Hd. split.
  - rewrite feed_line; [|exact Hc|simpl; now rewrite Hv].
    cbn. now apply strtoul_no_digits.
  - rewrite feed_line; [|exact Hc|simpl; now rewrite Hv].
    cbn. now apply strtoul_no_digits.
Qed.

(** C6, as the claim has it: the value -5 is no non-negative integer, and
    what is stored for it is not 0. *)
Lemma negative_value_is_not_stored_as_zero :
  let c := start (accept (create 1)) in
  decimal_numeral (lit "-5") = false /\
  m_sleep (feed_bytes c (line_bytes (Field (lit "X-Sleep") (lit "-5"))))
  = 18446744073709551611 /\
  m_request (feed_bytes c (line_bytes (Field (lit "X-Request") (lit "-5"))))
  = 18446744073709551611.
Proof. repeat split. Qed.

Lemma step_get_read (c : t) :
  at_boundary c -> socket.reading (m_socket c) = true ->
  exists c',
    step c get_read = Some c' /\
    at_boundary c' /\ socket.reading (m_socket c') = true /\
    m_instance c' = m_instance c /\
    m_reply c' = int_wrap (m_reply c + 1) /\
    history c'
    = history c ++ [reply_text (m_instance c) 0 (int_wrap (m_reply c + 1))].
Proof.
  intros Hb Hr. eexists. split.
  - simpl. rewrite Hr. reflexivity.
  - unfold handle_read. cbn [failed success Z.eqb negb].
    set (c0 := set_socket c (socket.read_done (m_socket c))).
    assert (Hb0 : at_boundary c0) by exact Hb.
    unfold get_request.
    rewrite (feed_request c0 [Text (lit "GET / HTTP/1.1")]
               (at_boundary_line_start c0 Hb0) eq_refl)
      by discriminate.
    destruct Hb as (_ & _ & Hs & Hq).
    change (m_sleep c0) with (m_sleep c). change (m_request c0) with (m_request c).
    rewrite Hs, Hq.
    change (lines_sleep [Text (lit "GET / HTTP/1.1")] 0) with 0.
    change (lines_request [Text (lit "GET / HTTP/1.1")] 0) with 0.
    destruct (answered_effect c0 0 0) as (H1 & H2 & H3 & H4 & _).
    set (c1 := answered c0 0 0) in *.
    repeat split; try apply H2; auto.
Qed.

Lemma run_get_reads (n : nat) :
  forall c : t,
    at_boundary c -> socket.reading (m_socket c) = true ->
    exists c',
      run c (repeat get_read n) = Some c' /\
      at_boundary c' /\ socket.reading (m_socket c') = true /\
      m_instance c' = m_instance c /\
      m_reply c' = count_up (m_reply c) n /\
      history c'
      = history c ++ numbered (m_instance c) (m_reply c) (repeat 0 n).
Proof.
  induction n as [|n IH]; intros c Hb Hr.
  - exists c. simpl. rewrite app_nil_r. repeat split; auto; apply Hb.
  - destruct (step_get_read c Hb Hr) as (c1 & Hs & Hb1 & Hr1 & Hi1 & Hn1 & Hh1).
    destruct (IH c1 Hb1 Hr1) as (c' & Hrun & Hb' & Hr' & Hi' & Hn' & Hh').
    exists c'. cbn [repeat run]. rewrite Hs.
    repeat split; try apply Hb'; auto.
    + congruence.
    + cbn [count_up]. congruence.
    + rewrite Hh', Hh1, Hi1, Hn1, <- app_assoc. reflexivity.
Qed.

(** C4, as the claim has it: after 2147483648 requests on one connection
    the last reply does not carry X-Reply 2147483648; the counter has
    wrapped. *)
Lemma reply_counter_wraps_around :
  exists (c : t) (before after : bytes),
    run (start (accept (create 1))) (repeat get_read (Z.to_nat 2147483648))
    = Some c /\
    nth_error (wire c ++ pending c) (Z.to_nat 2147483647)
    = Some (reply_text 1 0 (-2147483648)) /\
    reply_text 1 0 (-2147483648)
    = before ++ lit "X-Reply: -2147483648" ++ CRLF ++ after.
Proof.
  destruct (run_get_reads (Z.to_nat 2147483648) (start (accept (create 1))))
    as (c & Hrun & _ & _ & _ & _ & Hh).
  { repeat split. }
  { reflexivity. }
  exists c.
  exists (lit "HTTP/1.1 200 OK" ++ CRLF ++
          lit "Keep-Alive: timeout=10 max=400" ++ CRLF ++
          lit "Content-Length: 75" ++ CRLF ++
          lit "Content-Type: text/html" ++ CRLF ++
          lit "X-Connection: 1" ++ CRLF ++
          lit "X-Request: 0" ++ CRLF).
  exists (CRLF ++
          lit "<html><body>Reply -2147483648 on connection 1 for request #0</body></html>"
          ++ [LF]).
  split; [exact Hrun|]. split.
  - unfold history in Hh. rewrite Hh.
    change (wire (start (accept (create 1))) ++ pending (start (accept (create 1))))
      with (@nil bytes).
    change (m_instance (start (accept (create 1)))) with 1.
    change (m_reply (start (accept (create 1)))) with (int_wrap 0).
    cbn [app]. rewrite numbered_nth_error, nth_error_repeat by lia.
    cbn [option_map]. rewrite count_up_wrap.
    rewrite Nat2Z.inj_succ, Z2Nat.id by lia.
    change (int_wrap (0 + Z.succ 2147483647)) with (-2147483648). reflexivity.
  - vm_compute. reflexivity.
Qed.

(** ** The claims at work *)

Lemma replies_written_in_creation_order_witness :
  (exists c',
      run example_conn example_events = Some c' /\
      exists reqs,
        let created := numbered (m_instance example_conn)
                                (m_reply example_conn) reqs in
        prefix (wire example_conn) (wire c') /\
        prefix (wire c') (wire example_conn ++ pending example_conn ++ created) /\
        (m_closed c' = false ->
         wire c' ++ pending c'
         = wire example_conn ++ pending example_conn ++ created)) /\
  process_replies example_blocked = example_blocked.
Proof.
  split.
  - eexists. split; [vm_compute; reflexivity|].
    eapply (proj1 replies_written_in_creation_order example_conn example_events).
    vm_compute. reflexivity.
  - eapply (proj2 (proj2 replies_written_in_creation_order) example_blocked);
      vm_compute; reflexivity.
Defined.

Lemma reply_counter_counts_from_one_witness :
  exists c text,
    run (start (accept (create 1))) example_events = Some c /\
    Z.of_nat 1 < INT_MAX /\
    nth_error (wire c ++ pending c) 1 = Some text /\
    exists q, text = reply_text 1 q (Z.of_nat 1 + 1).
Proof.
  do 2 eexists.
  split; [vm_compute; reflexivity|].
  split; [reflexivity|].
  split; [vm_compute; reflexivity|].
  eapply (reply_counter_counts_from_one 1 example_events _ 1%nat);
    vm_compute; reflexivity.
Defined.

Lemma read_error_discards_queue_witness :
  let c' := handle_read example_blocked 104 [] in
  m_reply_queue c' = [] /\
  m_closed c' = true /\
  socket.is_open (m_socket c') = false /\
  socket.reading (m_socket c') = false /\
  wire c' = wire example_blocked /\
  (forall evs c'', run c' evs = Some c'' -> c'' = c').
Proof.
  apply (read_error_discards_queue example_blocked 104 []);
    unfold success, operation_aborted; lia.
Defined.


Lemma reply_echoes_request_id_witness :
  let ls1 := [Text (lit "GET / HTTP/1.1"); Field (lit "X-Sleep") (lit "500")] in
  let ls2 := [Field (lit "Accept") (lit "*/*")] in
  let c' :=
    feed_bytes example_conn
      (request_bytes (ls1 ++ Field (lit "X-Request") (lit "007") :: ls2)) in
  wire c' ++ pending c'
  = [lit "HTTP/1.1 200 OK" ++ CRLF ++
     lit "Keep-Alive: timeout=10 max=400" ++ CRLF ++
     lit "Content-Length: 65" ++ CRLF ++
     lit "Content-Type: text/html" ++ CRLF ++
     lit "X-Connection: 1" ++ CRLF ++
     lit "X-Request: 7" ++ CRLF ++
     lit "X-Reply: 1" ++ CRLF ++
     CRLF ++
     lit "<html><body>Reply 1 on connection 1 for request #7</body></html>"
     ++ [LF]].
Proof.
  refine (eq_trans
            (proj1 (reply_echoes_request_id example_conn
                      [Text (lit "GET / HTTP/1.1"); Field (lit "X-Sleep") (lit "500")]
                      [Field (lit "Accept") (lit "*/*")] (lit "007")
                      _ _ _ _ _))
            _).
  - repeat split.
  - reflexivity.
  - reflexivity.
  - reflexivity.
  - vm_compute. discriminate.
  - vm_compute. reflexivity.
Defined.

Lemma malformed_line_is_dropped_witness :
  header.feed_all header.create (line_bytes (Malformed (lit ":Bad-Header") (lit "oops")))
  = header.create /\
  feed_bytes example_conn
    (request_bytes [Text (lit "GET / HTTP/1.1");
                    Malformed (lit "Bad-Header") (lit "oops");
                    Field (lit "X-Request") (lit "7")])
  = feed_bytes example_conn
      (request_bytes [Text (lit "GET / HTTP/1.1");
                      Field (lit "X-Request") (lit "7")]).
Proof.
  split.
  - apply (proj1 malformed_line_is_dropped header.create
             (Malformed (lit ":Bad-Header") (lit "oops"))).
    + left. reflexivity.
    + reflexivity.
    + reflexivity.
  - apply (proj2 malformed_line_is_dropped example_conn
             [Text (lit "GET / HTTP/1.1")] [Field (lit "X-Request") (lit "7")]
             (Malformed (lit "Bad-Header") (lit "oops"))).
    + repeat split.
    + reflexivity.
    + reflexivity.
    + discriminate.
Defined.

Lemma value_without_digits_stores_zero_witness :
  m_sleep (feed_bytes example_conn (line_bytes (Field (lit "X-Sleep") (lit "abc"))))
  = 0 /\
  m_request (feed_bytes example_conn (line_bytes (Field (lit "X-Request") (lit "abc"))))
  = 0.
Proof.
  apply (value_without_digits_stores_zero example_conn (lit "abc")).
  - split.
    + exists 0%nat. split; [lia|reflexivity].
    + left. reflexivity.
  - reflexivity.
  - reflexivity.
Defined.

End Claims.

(** * Further properties of the server *)

(** ** The boundary matcher on its own *)

Section Matcher.

Import parser.

Lemma firstn_snoc_nth {A} (l : list A) (n : nat) (d : A) :
  (n < length l)%nat -> firstn (S n) l = firstn n l ++ [nth n l d].
Proof.
  revert n. induction l as [|x l IH]; intros n Hn; simpl in Hn; [lia|].
  destruct n as [|n]; [reflexivity|].
  change (x :: firstn (S n) l = x :: (firstn n l ++ [nth n l d])).
  f_equal. apply IH. lia.
Qed.

Lemma feed_keeps_str (p : t) (c : ascii) : m_str (feed p c) = m_str p.
Proof. unfold feed. destruct (negb (Ascii.eqb c (deref p))); reflexivity. Qed.

(** What the cursor stands for: the bytes before it are the last bytes
    consumed, and a match is reported only with the cursor at the end. *)
Lemma feed_cursor (p : t) (c : ascii) (w : bytes) :
  (m_match p = true -> m_ptr p = length (m_str p)) ->
  ((m_ptr p <= length (m_str p))%nat ->
   exists pre, w = pre ++ firstn (m_ptr p) (m_str p)) ->
  (m_match (feed p c) = true -> m_ptr (feed p c) = length (m_str p)) /\
  ((m_ptr (feed p c) <= length (m_str p))%nat ->
   exists pre, w ++ [c] = pre ++ firstn (m_ptr (feed p c)) (m_str p)).
Proof.
  intros Hm Hw. unfold feed.
  destruct (Ascii.eqb c (deref p)) eqn:E; cbn [negb].
  - apply Ascii.eqb_eq in E. cbn [m_match m_ptr m_str]. split.
    + intros H. now apply Nat.eqb_eq in H.
    + intros Hle. destruct Hw as [pre ->]; [lia|]. exists pre.
      rewrite (firstn_snoc_nth _ _ NUL) by lia.
      unfold deref in E. rewrite <- E. now rewrite app_assoc.
  - cbn. split; [discriminate|]. intros _. exists (w ++ [c]).
    now rewrite app_nil_r.
Qed.

Lemma feed_all_cursor (input : bytes) :
  forall (p : t) (w : bytes),
    (m_match p = true -> m_ptr p = length (m_str p)) ->
    ((m_ptr p <= length (m_str p))%nat ->
     exists pre, w = pre ++ firstn (m_ptr p) (m_str p)) ->
    m_str (feed_all p input) = m_str p /\
    (m_match (feed_all p input) = true ->
     m_ptr (feed_all p input) = length (m_str p)) /\
    ((m_ptr (feed_all p input) <= length (m_str p))%nat ->
     exists pre,
       w ++ input = pre ++ firstn (m_ptr (feed_all p input)) (m_str p)).
Proof.
  induction input as [|c input IH]; intros p w Hm Hw.
  - cbn. rewrite app_nil_r. auto.
  - destruct (feed_cursor p c w Hm Hw) as [Hm' Hw'].
    rewrite <- (feed_keeps_str p c) in Hm', Hw'.
    destruct (IH (feed p c) (w ++ [c]) Hm' Hw') as (I1 & I2 & I3).
    change (feed_all p (c :: input)) with (feed_all (feed p c) input).
    rewrite (feed_keeps_str p c) in I1, I2, I3.
    rewrite <- app_assoc in I3. auto.
Qed.

(** X1. The matcher reports no boundary that is not there: whenever it
    reports after some input, that input ends with the target sequence. *)
Theorem matcher_reports_only_real_boundaries :
  forall (S input : bytes),
    matched (feed_all (create S) input) = true ->
    exists pre, input = pre ++ S.
Proof.
  intros S input H.
  destruct (feed_all_cursor input (create S) []) as (H1 & H2 & H3).
  - discriminate.
  - intros _. exists []. reflexivity.
  - unfold matched in H. specialize (H2 H). cbn [create reset m_str] in *.
    destruct H3 as [pre E]; [lia|]. exists pre.
    cbn [app] in E. rewrite E, H2. now rewrite firstn_all.
Qed.

Lemma feed_all_snoc (p : t) (s : bytes) (c : ascii) :
  feed_all p (s ++ [c]) = feed (feed_all p s) c.
Proof. unfold feed_all. now rewrite fold_left_app. Qed.

Lemma feed_own_prefix (S : bytes) (b : bool) (n : nat) :
  (n < length S)%nat ->
  feed_all (mk S b 0) (firstn (Datatypes.S n) S)
  = mk S (Nat.eqb (Datatypes.S n) (length S)) (Datatypes.S n).
Proof.
  intros Hn. induction n as [|n IH].
  - destruct S as [|x S]; [simpl in Hn; lia|].
    cbn [firstn feed_all fold_left]. unfold feed, deref.
    cbn [m_ptr m_str nth]. now rewrite Ascii.eqb_refl.
  - rewrite (firstn_snoc_nth S (Datatypes.S n) NUL) by lia.
    rewrite feed_all_snoc, IH by lia.
    unfold feed, deref. cbn [m_ptr m_str]. now rewrite Ascii.eqb_refl.
Qed.

(** X2. A matcher whose cursor is at the start recognises its target: it
    reports on the last byte of the target and on no byte before it, and a
    reset then puts it back where it was created, ready for the next
    boundary. *)
Theorem matcher_recognises_its_target :
  forall p : t,
    m_ptr p = 0%nat -> m_str p <> [] ->
    matched (feed_all p (m_str p)) = true /\
    (forall n, (0 < n < length (m_str p))%nat ->
               matched (feed_all p (firstn n (m_str p))) = false) /\
    reset (feed_all p (m_str p)) = create (m_str p).
Proof.
  intros [S b ptr] Hp HS. cbn [m_ptr m_str] in *. subst ptr.
  assert (Hlen : (0 < length S)%nat) by (destruct S; [contradiction|simpl; lia]).
  assert (Hall : feed_all (mk S b 0) S = mk S true (length S)).
  { rewrite <- (firstn_all S) at 2.
    destruct (length S) as [|n] eqn:E; [lia|].
    rewrite feed_own_prefix by lia. rewrite E. now rewrite Nat.eqb_refl. }
  split; [|split].
  - now rewrite Hall.
  - intros [|n] Hn; [lia|]. rewrite feed_own_prefix by lia.
    cbn [matched m_match]. apply Nat.eqb_neq. lia.
  - now rewrite Hall.
Qed.

End Matcher.

(** ** The header extractor on its own *)

Section Extractor.

Import header.

(** X3. A line feed never leaves the extractor in the middle of a line: it
    completes a pair, which takes a line feed right after the carriage
    return of an error-free line and keeps key and value as they were
    collected, or it resets the extractor. *)
Theorem line_feed_completes_or_resets :
  forall h : t,
    feed h LF = create \/
    (matched h = false /\ m_state h = s_carriage_return /\ m_error h = false /\
     feed h LF = mk (m_key h) (m_value h) s_matched false).
Proof.
  intros [k v st e]. destruct st; try (left; reflexivity).
  destruct e; [left; reflexivity|]. right. repeat split.
Qed.

(** X4. What a [KEY: VALUE] line puts on the wire, the extractor gives
    back: fed the line, it reports on the line feed, on no byte before it,
    and holds the key and the value. *)
Theorem extractor_returns_key_and_value :
  forall (h : t) (k v : bytes),
    line_start h -> line_ok (Field k v) = true ->
    let h' := feed_all h (k ++ lit ": " ++ v ++ CRLF) in
    matched h' = true /\ key h' = k /\ value h' = v /\
    (forall p q, k ++ lit ": " ++ v ++ CRLF = p ++ q -> p <> [] -> q <> [] ->
                 matched (feed_all h p) = false).
Proof.
  intros h k v Hh Hok h'.
  pose proof (header_feed_line h (Field k v) Hh Hok) as H.
  change (line_bytes (Field k v)) with (k ++ lit ": " ++ v ++ CRLF) in H.
  subst h'. rewrite H. repeat split.
  intros p q E Hp Hq. apply (no_match_within_line h (Field k v) p q Hok E Hp Hq).
Qed.

(** X5. A line without a colon, its first byte apart, gives no pair: the
    extractor reports on none of its bytes and is reset after its line
    feed. *)
Theorem line_without_colon_gives_no_pair :
  forall (h : t) (txt : bytes),
    line_start h -> line_ok (Text txt) = true ->
    feed_all h (txt ++ CRLF) = create /\
    (forall p q, txt ++ CRLF = p ++ q -> p <> [] ->
                 matched (feed_all h p) = false).
Proof.
  intros h txt Hh Hok.
  pose proof (header_feed_line h (Text txt) Hh Hok) as H.
  change (line_bytes (Text txt)) with (txt ++ CRLF) in H.
  split; [exact H|]. intros p q E Hp. destruct q as [|x q].
  - rewrite app_nil_r in E. subst p. now rewrite H.
  - apply (no_match_within_line h (Text txt) p (x :: q) Hok E Hp). discriminate.
Qed.

(** X6. A carriage return inside a value that is not followed by a line
    feed spoils the line: whatever follows up to the next line feed, no
    pair is reported and the line feed resets the extractor. *)
Theorem stray_cr_in_value_spoils_the_line :
  forall (h : t) (k v c_rest : bytes) (c : ascii),
    line_start h -> line_ok (Field k v) = true ->
    Ascii.eqb c LF = false -> no_lf c_rest = true ->
    let bytes_of_line := k ++ lit ": " ++ v ++ [CR] ++ c :: c_rest ++ [LF] in
    feed_all h bytes_of_line = create /\
    (forall p q, bytes_of_line = p ++ q -> p <> [] ->
                 matched (feed_all h p) = false).
Proof.
  intros h k v c_rest c Hh Hok Hc Hrest bytes_of_line.
  assert (Hk : feed_all h (k ++ lit ": " ++ v) = mk k v s_value false).
  { simpl in Hok.
    repeat (apply andb_true_iff in Hok; destruct Hok as [Hok ?]).
    rewrite header_feed_all_line_start by (auto; destruct k; discriminate).
    rewrite header_feed_all_app, header_feed_name; auto using no_eol_no_lf.
    change (lit ": " ++ v) with (":"%char :: " "%char :: v).
    rewrite !header_feed_all_cons.
    change (feed (mk k [] s_key false) ":") with (mk k [] s_colon false).
    change (feed (mk k [] s_colon false) " ") with (mk k [] s_value false).
    now rewrite header_feed_value. }
  assert (Herr : in_error (feed_all h (k ++ lit ": " ++ v ++ [CR] ++ c :: c_rest))).
  { replace (k ++ lit ": " ++ v ++ [CR] ++ c :: c_rest)
      with ((k ++ lit ": " ++ v) ++ CR :: c :: c_rest)
      by (now rewrite <- !app_assoc).
    rewrite header_feed_all_app, Hk, !header_feed_all_cons.
    change (feed (mk k v s_value false) CR) with (mk k v s_carriage_return false).
    apply header_feed_all_in_error; [|exact Hrest].
    assert (E : feed (mk k v s_carriage_return false) c
                = mk k v s_carriage_return true).
    { unfold feed, after_switch. cbn [matched m_state]. now rewrite Hc. }
    rewrite E. split; [reflexivity|]. cbn. auto. }
  assert (Hall : feed_all h bytes_of_line = create).
  { subst bytes_of_line.
    replace (k ++ lit ": " ++ v ++ [CR] ++ c :: c_rest ++ [LF])
      with ((k ++ lit ": " ++ v ++ [CR] ++ c :: c_rest) ++ [LF])
      by (now rewrite <- !app_assoc).
    rewrite header_feed_all_app.
    now apply header_feed_lf_in_error. }
  split; [exact Hall|].
  intros p q E Hp. destruct (exists_last Hp) as (p' & x & ->).
  destruct (Ascii.eqb x LF) eqn:Ex.
  - apply Ascii.eqb_eq in Ex. subst x.
    assert (Hq : q = []).
    { assert (E' : (k ++ lit ": " ++ v ++ [CR] ++ c :: c_rest) ++ [LF]
                   = p' ++ LF :: q).
      { transitivity bytes_of_line;
          [subst bytes_of_line; now rewrite <- !app_assoc|].
        rewrite E. now rewrite <- app_assoc. }
      apply split_at_lf in E'; [tauto|].
      simpl in Hok.
      repeat (apply andb_true_iff in Hok; destruct Hok as [Hok ?]).
      unfold no_lf in *. rewrite !forallb_app. cbn [forallb].
      rewrite Hc, Hrest.
      repeat match goal with
             | H : no_eol _ = true |- _ =>
                 apply no_eol_no_lf in H; unfold no_lf in H; rewrite H; clear H
             end.
      reflexivity. }
    subst q. rewrite app_nil_r in E. rewrite <- E, Hall. reflexivity.
  - rewrite header_feed_all_app.
    change (feed_all (feed_all h p') [x]) with (feed (feed_all h p') x).
    now apply matched_only_on_lf.
Qed.

(** X7. A key is never empty: a colon at the start of a line is taken as
    the first byte of the key, and the pair is reported under that key. *)
Theorem leading_colon_belongs_to_the_key :
  forall (h : t) (k v : bytes),
    line_start h -> no_eol k = true -> no_colon k = true -> no_eol v = true ->
    feed_all h (lit ":" ++ k ++ lit ": " ++ v ++ CRLF)
    = mk (lit ":" ++ k) v s_matched false.
Proof.
  intros h k v Hh Hk1 Hk2 Hv.
  rewrite header_feed_all_line_start by (auto; discriminate).
  change (lit ":" ++ k ++ lit ": " ++ v ++ CRLF)
    with (":"%char :: k ++ lit ": " ++ v ++ CRLF).
  rewrite header_feed_all_cons.
  change (feed create ":") with (mk [":"%char] [] s_key false).
  rewrite header_feed_all_app, header_feed_key;
    auto using no_eol_no_lf; [|discriminate].
  change (lit ": " ++ v ++ CRLF) with (":"%char :: " "%char :: v ++ CRLF).
  rewrite !header_feed_all_cons.
  change (feed (mk ([":"%char] ++ k) [] s_key false) ":")
    with (mk ([":"%char] ++ k) [] s_colon false).
  change (feed (mk ([":"%char] ++ k) [] s_colon false) " ")
    with (mk ([":"%char] ++ k) [] s_value false).
  rewrite header_feed_all_app, header_feed_value; auto.
Qed.

End Extractor.

(** ** The connection: parsing *)

Section ConnectionParsing.

Import tcp_connection.

Lemma eom_feed_cases (n : nat) (c : ascii) :
  (n < 4)%nat ->
  (exists m, (m < 4)%nat /\ parser.feed (eom_at n) c = eom_at m) \/
  parser.feed (eom_at n) c = parser.mk (CRLF ++ CRLF) true 4.
Proof.
  intros Hn. unfold parser.feed, parser.deref.
  destruct n as [|[|[|[|n]]]]; try lia; cbn [eom_at parser.m_ptr parser.m_str];
    match goal with
    | |- context [Ascii.eqb c ?x] => destruct (Ascii.eqb c x)
    end; cbn;
    try (right; reflexivity);
    left;
    [ exists 1%nat | exists 0%nat | exists 2%nat | exists 0%nat
    | exists 3%nat | exists 0%nat | exists 0%nat ];
    (split; [lia|reflexivity]).
Qed.

Lemma feed_byte_cursor (c : t) (p : ascii) :
  (exists n, (n < 4)%nat /\ m_eom c = eom_at n) ->
  exists n, (n < 4)%nat /\ m_eom (feed_byte c p) = eom_at n.
Proof.
  intros (n & Hn & He). unfold feed_byte. cbn [m_eom m_header set_parsers].
  rewrite He. destruct (eom_feed_cases n p Hn) as [(m & Hm & E) | E]; rewrite E.
  - cbn [parser.matched parser.m_match eom_at].
    exists m. split; [exact Hm|].
    destruct (header.matched _); [|reflexivity].
    destruct (bytes_eqb _ _); [reflexivity|].
    destruct (bytes_eqb _ _); reflexivity.
  - cbn [parser.matched parser.m_match].
    exists 0%nat. split; [lia|]. cbn [m_eom set_sleep].
    match goal with |- context [queue_reply ?x] =>
      destruct (queue_reply_effect x) as (_ & _ & _ & H & _)
    end.
    rewrite H. reflexivity.
Qed.

Lemma feed_bytes_cursor (data : bytes) (c : t) :
  (exists n, (n < 4)%nat /\ m_eom c = eom_at n) ->
  exists n, (n < 4)%nat /\ m_eom (feed_bytes c data) = eom_at n.
Proof.
  revert c. induction data as [|p data IH]; intros c H; [exact H|].
  rewrite feed_bytes_cons. apply IH. now apply feed_byte_cursor.
Qed.

Lemma step_cursor (c c' : t) (ev : event) :
  step c ev = Some c' ->
  (exists n, (n < 4)%nat /\ m_eom c = eom_at n) ->
  exists n, (n < 4)%nat /\ m_eom c' = eom_at n.
Proof.
  intros Hs H. destruct ev as [e data | e n | i e]; simpl in Hs.
  - destruct (socket.reading (m_socket c)); [|discriminate].
    injection Hs as <-. unfold handle_read. destruct (negb (failed e)).
    + cbn [m_eom set_socket]. apply feed_bytes_cursor. exact H.
    + destruct (negb (e =? operation_aborted)); exact H.
  - injection Hs as <-. exact H.
  - unfold timed_out in Hs. destruct (negb (failed e)).
    + destruct (nth_error (m_reply_queue c) i) as [r|];
        [destruct (Reply.is_sleeping r); [|discriminate]|];
        injection Hs as <-;
        match goal with |- context [process_replies ?x] =>
          destruct (process_replies_frame x) as (_ & _ & _ & E & _)
        end;
        rewrite E; exact H.
    + injection Hs as <-. exact H.
Qed.

(** X8. Between any two handlers of a started connection the cursor of its
    boundary matcher stands inside the target, at one of its four bytes: a
    match is always followed by a reset, so the next byte never finds the
    iterator at the end of the string. *)
Theorem matcher_cursor_stays_inside :
  forall (inst : Z) (evs : list event) (c : t),
    run (start (accept (create inst))) evs = Some c ->
    exists n, (n < 4)%nat /\ m_eom c = eom_at n.
Proof.
  intros inst evs.
  assert (H0 : exists n, (n < 4)%nat /\
                         m_eom (start (accept (create inst))) = eom_at n).
  { exists 0%nat. split; [lia|reflexivity]. }
  revert H0. generalize (start (accept (create inst))).
  induction evs as [|ev evs IH]; intros c0 H0 c; simpl.
  - now intros [= <-].
  - destruct (step c0 ev) as [c1|] eqn:Hs; [|discriminate].
    apply IH. eapply step_cursor; eassumption.
Qed.

(** X9. A header with any other key is parsed and dropped: the line moves
    the two parsers on and changes nothing else of the connection. Keys are
    compared byte by byte. *)
Theorem other_headers_are_ignored :
  forall (c : t) (k v : bytes),
    at_line_start c -> line_ok (Field k v) = true ->
    k <> lit "X-Sleep" -> k <> lit "X-Request" ->
    feed_bytes c (line_bytes (Field k v))
    = set_parsers c (eom_at 2) (header.mk k v header.s_matched false).
Proof.
  intros c k v Hc Hok H1 H2. rewrite (feed_line c _ Hc Hok).
  assert (E1 : bytes_eqb k (lit "X-Sleep") = false).
  { destruct (bytes_eqb k (lit "X-Sleep")) eqn:E; [|reflexivity].
    apply bytes_eqb_eq in E. contradiction. }
  assert (E2 : bytes_eqb k (lit "X-Request") = false).
  { destruct (bytes_eqb k (lit "X-Request")) eqn:E; [|reflexivity].
    apply bytes_eqb_eq in E. contradiction. }
  unfold after_lines, lines_sleep, lines_request.
  cbn [fold_left line_sleep line_request line_header].
  rewrite E1, E2. destruct c. reflexivity.
Qed.

Lemma feed_requests (reqs : list (list line)) :
  forall c : t,
    at_boundary c ->
    forallb (fun ls => nonempty_lines ls && forallb line_ok ls)%bool reqs = true ->
    let c' := feed_bytes c (concat (map request_bytes reqs)) in
    history c'
    = history c
      ++ numbered (m_instance c) (m_reply c)
                  (map (fun ls => lines_request ls 0) reqs) /\
    at_boundary c' /\ m_closed c' = m_closed c.
Proof.
  induction reqs as [|ls reqs IH]; intros c Hb Hok.
  - cbn. rewrite app_nil_r. auto.
  - apply forallb_cons_true in Hok. destruct Hok as [Hls Hreqs].
    apply andb_true_iff in Hls. destruct Hls as [Hne Hls].
    cbn [map concat]. cbv zeta. rewrite feed_bytes_app.
    rewrite (feed_request c ls (at_boundary_line_start c Hb) Hls)
      by (destruct ls; [discriminate|discriminate]).
    destruct Hb as (He & Hh & Hs & Hr). rewrite Hs, Hr.
    destruct (answered_effect c (lines_sleep ls 0) (lines_request ls 0))
      as (A1 & A2 & A3 & A4 & A5).
    destruct (IH _ A2 Hreqs) as (I1 & I2 & I3).
    rewrite I1, A1, A3, A4, <- app_assoc. cbn [numbered app].
    repeat split; try apply I2; congruence.
Qed.

End ConnectionParsing.

(** ** The connection: the reply queue and its timers *)

Section ConnectionQueue.

Import tcp_connection.

Lemma read_digits_nonneg (s : bytes) :
  forall acc any, 0 <= acc -> 0 <= fst (read_digits s acc any).
Proof.
  induction s as [|c s IH]; intros acc any Hacc; [exact Hacc|].
  cbn [read_digits]. destruct (isdigit c); [|exact Hacc].
  apply IH. unfold digit_val. lia.
Qed.

Lemma strtoul_range (s : bytes) : 0 <= strtoul s <= ULONG_MAX.
Proof.
  unfold strtoul.
  set (s2 := match skip_space s with
             | [] => (false, skip_space s)
             | c :: t =>
                 if Ascii.eqb c "-" then (true, t)
                 else if Ascii.eqb c "+" then (false, t)
                 else (false, skip_space s)
             end).
  destruct s2 as [neg rest].
  pose proof (read_digits_nonneg rest 0 false ltac:(lia)) as Hv.
  destruct (read_digits rest 0 false) as [v any]. cbn [fst] in Hv.
  unfold ULONG_MAX in *.
  destruct (negb any); [lia|].
  destruct (18446744073709551615 <? v) eqn:E; [lia|].
  apply Z.ltb_ge in E. destruct neg; [|lia].
  unfold ulong_wrap.
  pose proof (Z.mod_pos_bound (- v) (2 ^ 64) ltac:(lia)). lia.
Qed.

Lemma lines_sleep_nonneg (ls : list line) (z : Z) :
  0 <= z -> 0 <= lines_sleep ls z.
Proof.
  revert z. induction ls as [|l ls IH]; intros z Hz; [exact Hz|].
  unfold lines_sleep in *. cbn [fold_left]. apply IH.
  destruct l as [k v| |]; cbn; try exact Hz.
  destruct (bytes_eqb k _); [apply strtoul_range|exact Hz].
Qed.

Lemma set_sleeping_back_app (q : list Reply.t) (r : Reply.t) (z : Z) :
  set_sleeping_back (q ++ [r]) z = q ++ [Reply.set_sleeping r z].
Proof.
  induction q as [|x q IH]; [reflexivity|].
  cbn [app]. destruct (q ++ [r]) as [|y q'] eqn:E.
  - destruct q; discriminate.
  - change (set_sleeping_back (x :: y :: q') z)
      with (x :: set_sleeping_back (y :: q') z).
    now rewrite IH.
Qed.

(** The connection a request leaves behind, with the new reply spelled
    out. *)
Lemma answered_queue (c : t) (sleep request : Z) :
  0 <= sleep ->
  answered c sleep request
  = set_sleep
      (process_replies
         (mk (m_instance c) (int_wrap (m_reply c + 1)) (m_closed c) (m_socket c)
             (eom_at 0) header.create sleep 0
             (m_reply_queue c
                ++ [Reply.mk (reply_text (m_instance c) request
                                         (int_wrap (m_reply c + 1))) sleep])))
      0.
Proof.
  intros Hs. unfold answered. rewrite queue_reply_queued. do 2 f_equal.
  unfold queued. cbn [m_instance m_reply m_closed m_socket m_eom m_header
                      m_sleep m_request m_reply_queue].
  f_equal. destruct (sleep =? 0) eqn:E; cbn [negb].
  - apply Z.eqb_eq in E. subst sleep. reflexivity.
  - apply Z.eqb_neq in E. rewrite set_sleeping_back_app.
    unfold Reply.set_sleeping, Reply.create.
    destruct (0 <? sleep) eqn:E'; [reflexivity|].
    apply Z.ltb_ge in E'. lia.
Qed.

(** X11. A request that asks for a delay leaves its reply at the back of
    the queue, sleeping for the milliseconds asked: handling the request
    writes nothing of it, whatever else was flushed from the front. *)
Theorem delayed_reply_is_queued_asleep :
  forall (c : t) (ls : list line),
    at_boundary c -> forallb line_ok ls = true -> ls <> [] ->
    0 < lines_sleep ls 0 ->
    let c' := feed_bytes c (request_bytes ls) in
    let new :=
      Reply.mk (reply_text (m_instance c) (lines_request ls 0)
                           (int_wrap (m_reply c + 1)))
               (lines_sleep ls 0) in
    Reply.is_sleeping new = true /\
    exists n,
      m_reply_queue c' = skipn n (m_reply_queue c) ++ [new] /\
      wire c' = wire c ++ map Reply.str (firstn n (m_reply_queue c)).
Proof.
  intros c ls Hb Hok Hne Hd c' new.
  assert (Hsl : Reply.is_sleeping new = true).
  { unfold Reply.is_sleeping, new. cbn.
    destruct (lines_sleep ls 0 =? 0) eqn:E; [apply Z.eqb_eq in E; lia|reflexivity]. }
  split; [exact Hsl|].
  subst c'. rewrite (feed_request c ls (at_boundary_line_start c Hb) Hok Hne).
  destruct Hb as (_ & _ & Hs & Hr). rewrite Hs, Hr.
  rewrite answered_queue by lia. fold new.
  match goal with |- context [process_replies ?x] =>
    destruct (process_replies_front x) as (n & Hq & Hw & Hall); set (c1 := x) in *
  end.
  cbn [m_reply_queue set_sleep]. unfold wire in *. cbn [m_socket set_sleep].
  change (m_reply_queue c1) with (m_reply_queue c ++ [new]) in *.
  change (m_socket c1) with (m_socket c) in *.
  assert (Hn : (n <= length (m_reply_queue c))%nat).
  { destruct (Nat.le_gt_cases n (length (m_reply_queue c))) as [H|H]; [exact H|].
    rewrite firstn_all2 in Hall by (rewrite length_app; simpl; lia).
    rewrite forallb_app in Hall. cbn in Hall. rewrite Hsl in Hall.
    cbn in Hall. rewrite andb_false_r in Hall. discriminate. }
  exists n. rewrite Hq, Hw. split.
  - rewrite skipn_app.
    replace (n - length (m_reply_queue c))%nat with 0%nat by lia. reflexivity.
  - rewrite firstn_app.
    replace (n - length (m_reply_queue c))%nat with 0%nat by lia.
    cbn [firstn]. now rewrite app_nil_r.
Qed.

(** X12. On an open connection with nothing queued, a request that asks
    for no delay is answered at once: its reply goes to the socket and the
    queue stays empty. *)
Theorem undelayed_reply_is_written_at_once :
  forall (c : t) (ls : list line),
    at_boundary c -> forallb line_ok ls = true -> ls <> [] ->
    m_closed c = false -> m_reply_queue c = [] ->
    lines_sleep ls 0 = 0 ->
    let c' := feed_bytes c (request_bytes ls) in
    wire c'
    = wire c ++ [reply_text (m_instance c) (lines_request ls 0)
                            (int_wrap (m_reply c + 1))] /\
    m_reply_queue c' = [].
Proof.
  intros c ls Hb Hok Hne Hc Hq Hd c'.
  subst c'. rewrite (feed_request c ls (at_boundary_line_start c Hb) Hok Hne).
  destruct Hb as (_ & _ & Hs & Hr). rewrite Hs, Hr, Hd.
  rewrite answered_queue by lia. rewrite Hq.
  unfold process_replies. cbn [m_closed m_reply_queue app]. rewrite Hc.
  cbn. auto.
Qed.

(** X13. Head-of-line blocking: while the reply at the front of the queue
    sleeps, a further request, delayed or not, only adds its reply at the
    back; nothing is written. *)
Theorem reply_waits_behind_sleeping_front :
  forall (c : t) (ls : list line) (r : Reply.t) (q : list Reply.t),
    at_boundary c -> forallb line_ok ls = true -> ls <> [] ->
    m_reply_queue c = r :: q -> Reply.is_sleeping r = true ->
    let c' := feed_bytes c (request_bytes ls) in
    wire c' = wire c /\
    m_reply_queue c'
    = m_reply_queue c
      ++ [Reply.mk (reply_text (m_instance c) (lines_request ls 0)
                               (int_wrap (m_reply c + 1)))
                   (lines_sleep ls 0)].
Proof.
  intros c ls r q Hb Hok Hne Hq Hr c'.
  subst c'. rewrite (feed_request c ls (at_boundary_line_start c Hb) Hok Hne).
  destruct Hb as (_ & _ & Hs & Hrq). rewrite Hs, Hrq.
  rewrite answered_queue by (apply lines_sleep_nonneg; lia).
  rewrite (process_replies_blocked _ r (q ++ [Reply.mk
             (reply_text (m_instance c) (lines_request ls 0)
                         (int_wrap (m_reply c + 1))) (lines_sleep ls 0)]));
    [split; reflexivity| |exact Hr].
  cbn [m_reply_queue]. now rewrite Hq.
Qed.

(** X14. When the timer of the front reply fires on an open connection,
    that reply is written, and with it every reply behind it up to the
    next one that still sleeps; those stay queued, in order. *)
Theorem front_timer_releases_the_awake_run :
  forall (c : t) (r : Reply.t) (q : list Reply.t),
    m_closed c = false -> m_reply_queue c = r :: q ->
    Reply.is_sleeping r = true ->
    exists c' n,
      timed_out c 0 success = Some c' /\
      wire c' = wire c ++ Reply.str r :: map Reply.str (firstn n q) /\
      m_reply_queue c' = skipn n q /\
      forallb (fun x => negb (Reply.is_sleeping x)) (firstn n q) = true /\
      match skipn n q with
      | [] => True
      | x :: _ => Reply.is_sleeping x = true
      end.
Proof.
  intros c r q Hc Hq Hr.
  destruct (flush_front q (socket.async_write (m_socket c) (Reply.str r)))
    as (n & F1 & F2 & _ & _ & F5 & F6).
  eexists. exists n. split.
  - unfold timed_out. cbn [failed success Z.eqb negb]. rewrite Hq.
    cbn [nth_error]. rewrite Hr. reflexivity.
  - unfold process_replies. cbn [m_closed set_queue m_reply_queue m_socket awake_at].
    rewrite Hc. cbn [flush Reply.is_sleeping Reply.m_sleep Z.eqb negb Reply.str Reply.m_str].
    change (Reply.m_str r) with (Reply.str r).
    destruct (flush q (socket.async_write (m_socket c) (Reply.str r))) as [q' s'].
    cbn [fst snd] in *. unfold wire. cbn. rewrite F2. cbn.
    rewrite <- app_assoc. cbn. subst q'. auto.
Qed.

(** X15. When the timer of a reply behind a sleeping front fires, that
    reply is only marked awake: it stays where it is in the queue and
    nothing is written. *)
Theorem timer_behind_sleeping_front_writes_nothing :
  forall (c : t) (r r' : Reply.t) (q : list Reply.t) (i : nat),
    m_reply_queue c = r :: q -> Reply.is_sleeping r = true ->
    nth_error q i = Some r' -> Reply.is_sleeping r' = true ->
    exists c',
      timed_out c (S i) success = Some c' /\
      wire c' = wire c /\
      m_reply_queue c' = r :: awake_at q i /\
      nth_error (m_reply_queue c') (S i) = Some (Reply.mk (Reply.str r') 0).
Proof.
  intros c r r' q i Hq Hr Hi Hr'.
  eexists. split.
  - unfold timed_out. cbn [failed success Z.eqb negb]. rewrite Hq.
    cbn [nth_error]. rewrite Hi, Hr'. reflexivity.
  - cbn [awake_at].
    rewrite (process_replies_blocked _ r (awake_at q i)); [|reflexivity|exact Hr].
    cbn [m_reply_queue set_queue]. repeat split.
    cbn [nth_error]. clear Hq. revert i Hi.
    induction q as [|x q IH]; intros [|i] Hi; try discriminate.
    + injection Hi as ->. reflexivity.
    + cbn [awake_at nth_error]. now apply IH.
Qed.

End ConnectionQueue.

(** ** The connection: reads and its life cycle *)

Section ConnectionReads.

Import tcp_connection.

Lemma flush_reading (q : list Reply.t) :
  forall (s : socket.t) (b : bool),
    flush q (socket.mk (socket.is_open s) b (socket.written s))
    = (fst (flush q s),
       socket.mk (socket.is_open (snd (flush q s))) b
                 (socket.written (snd (flush q s)))).
Proof.
  induction q as [|r q IH]; intros s b; [reflexivity|].
  cbn [flush]. destruct (Reply.is_sleeping r); [reflexivity|].
  rewrite <- (IH (socket.async_write s (Reply.str r)) b). reflexivity.
Qed.

Lemma process_replies_reading (c : t) (b : bool) :
  process_replies (set_reading c b) = set_reading (process_replies c) b.
Proof.
  unfold process_replies, set_reading. cbn [m_closed m_reply_queue set_socket m_socket].
  destruct (m_closed c); [reflexivity|].
  destruct (m_reply_queue c) as [|r q]; [reflexivity|].
  rewrite flush_reading.
  destruct (flush (r :: q) (m_socket c)) as [q' s']. reflexivity.
Qed.

Lemma queue_reply_reading (c : t) (b : bool) :
  queue_reply (set_reading c b) = set_reading (queue_reply c) b.
Proof.
  rewrite !queue_reply_queued, <- process_replies_reading. reflexivity.
Qed.

Lemma feed_byte_reading (c : t) (b : bool) (p : ascii) :
  feed_byte (set_reading c b) p = set_reading (feed_byte c p) b.
Proof.
  unfold feed_byte. cbn [m_eom m_header set_parsers set_reading set_socket].
  destruct (parser.matched _).
  - match goal with |- set_sleep (queue_reply ?x) 0 = _ =>
      change x with (set_reading (set_parsers (set_parsers c
                       (parser.feed (m_eom c) p) (header.feed (m_header c) p))
                       (parser.reset (parser.feed (m_eom c) p))
                       (header.reset (header.feed (m_header c) p))) b)
    end.
    rewrite queue_reply_reading. reflexivity.
  - destruct (header.matched _); [|reflexivity].
    destruct (bytes_eqb _ _); [reflexivity|].
    destruct (bytes_eqb _ _); reflexivity.
Qed.

Lemma feed_bytes_reading (data : bytes) (c : t) (b : bool) :
  feed_bytes (set_reading c b) data = set_reading (feed_bytes c data) b.
Proof.
  revert c. induction data as [|p data IH]; intros c; [reflexivity|].
  rewrite !feed_bytes_cons, feed_byte_reading. apply IH.
Qed.

Lemma handle_read_success (c : t) (data : bytes) :
  handle_read c success data = set_reading (feed_bytes c data) true.
Proof.
  unfold handle_read. cbn [failed success Z.eqb negb].
  change (set_socket c (socket.read_done (m_socket c))) with (set_reading c false).
  rewrite feed_bytes_reading. reflexivity.
Qed.

Lemma run_successful_reads (chunks : list bytes) :
  forall c : t,
    socket.reading (m_socket c) = true ->
    run c (map (ReadDone success) chunks)
    = Some (match chunks with
            | [] => c
            | _ :: _ => set_reading (feed_bytes c (concat chunks)) true
            end).
Proof.
  induction chunks as [|d chunks IH]; intros c Hr; [reflexivity|].
  cbn [map run step]. rewrite Hr, handle_read_success.
  rewrite IH by reflexivity. f_equal.
  destruct chunks as [|d' chunks']; cbn [concat].
  - now rewrite app_nil_r.
  - rewrite feed_bytes_reading, <- !feed_bytes_app. reflexivity.
Qed.

(** X16. How the byte stream is cut into reads is of no account: the
    parsers keep their state from one read to the next, so a sequence of
    successful reads leaves the connection exactly as one read of all the
    bytes would. *)
Theorem reads_may_be_split_anywhere :
  forall (c : t) (chunks : list bytes),
    socket.reading (m_socket c) = true -> chunks <> [] ->
    run c (map (ReadDone success) chunks)
    = run c [ReadDone success (concat chunks)].
Proof.
  intros c chunks Hr Hne.
  rewrite (run_successful_reads chunks c Hr).
  change [ReadDone success (concat chunks)]
    with (map (ReadDone success) [concat chunks]).
  rewrite (run_successful_reads [concat chunks] c Hr).
  destruct chunks; [contradiction|]. cbn [concat]. now rewrite !app_nil_r.
Qed.

(** X17. The connection reads on exactly as long as its reads succeed: a
    successful read starts the next one, and after a read that failed or was
    cancelled no read is outstanding, so no further read can complete. A
    cancelled read changes nothing else. *)
Theorem reading_goes_on_while_reads_succeed :
  (forall (c : t) (data : bytes),
      socket.reading (m_socket (handle_read c success data)) = true) /\
  (forall (c : t) (e : error_code) (data : bytes),
      e <> success ->
      socket.reading (m_socket (handle_read c e data)) = false /\
      forall e' data', step (handle_read c e data) (ReadDone e' data') = None) /\
  (forall (c : t) (data : bytes),
      handle_read c operation_aborted data = set_reading c false).
Proof.
  split; [|split].
  - intros c data. now rewrite handle_read_success.
  - intros c e data He.
    assert (H : socket.reading (m_socket (handle_read c e data)) = false).
    { unfold handle_read, failed, success in *.
      destruct (e =? 0) eqn:E; [apply Z.eqb_eq in E; contradiction|].
      cbn [negb]. destruct (negb (e =? operation_aborted)); reflexivity. }
    split; [exact H|]. intros e' data'. cbn [step]. now rewrite H.
  - reflexivity.
Qed.

(** X18. Closing is final and silent: once the closed flag is set, no run
    of the handlers clears it, and nothing more is handed to the socket. *)
Theorem closed_connection_stays_closed_and_silent :
  forall (c : t) (evs : list event) (c' : t),
    run c evs = Some c' -> m_closed c = true ->
    m_closed c' = true /\ wire c' = wire c.
Proof.
  intros c evs c' Hrun Hc.
  destruct (run_extends _ _ _ Hrun) as (reqs & _ & _ & _ & _ & _ & H).
  exact (H Hc).
Qed.

(** X19. Only a failed read closes a connection: if a run of the handlers
    ends closed and did not start so, one of its events is a read that
    completed with an error other than cancellation. *)
Theorem only_a_failed_read_closes :
  forall (evs : list event) (c c' : t),
    run c evs = Some c' -> m_closed c = false -> m_closed c' = true ->
    exists e data,
      In (ReadDone e data) evs /\ e <> success /\ e <> operation_aborted.
Proof.
  induction evs as [|ev evs IH]; intros c c' Hrun Hc Hc'.
  - cbn in Hrun. injection Hrun as <-. congruence.
  - cbn [run] in Hrun. destruct (step c ev) as [c1|] eqn:Hs; [|discriminate].
    destruct (m_closed c1) eqn:Hc1.
    + assert (exists e data, ev = ReadDone e data /\ e <> success
                             /\ e <> operation_aborted) as (e & data & -> & H).
      { destruct ev as [e data | e n | i e]; cbn [step] in Hs.
        - destruct (socket.reading (m_socket c)); [|discriminate].
          injection Hs as <-. exists e, data. split; [reflexivity|].
          unfold handle_read, failed, success, operation_aborted in *.
          destruct (e =? 0) eqn:E0; cbn [negb] in Hc1.
          + cbn in Hc1.
            destruct (feed_bytes_effect data
                        (set_socket c (socket.read_done (m_socket c))))
              as (reqs & _ & _ & H3 & _).
            cbn in H3. congruence.
          + apply Z.eqb_neq in E0.
            destruct (e =? 125) eqn:E1; cbn [negb] in Hc1.
            * cbn in Hc1. congruence.
            * apply Z.eqb_neq in E1. auto.
        - injection Hs as <-. unfold handle_write in Hc1. congruence.
        - destruct (timed_out_extends _ _ _ _ Hs) as (_ & _ & _ & _ & H5 & _).
          exfalso. clear H5. unfold timed_out in Hs.
          destruct (negb (failed e)).
          + destruct (nth_error (m_reply_queue c) i) as [r|];
              [destruct (Reply.is_sleeping r); [|discriminate]|];
              injection Hs as <-;
              match type of Hc1 with m_closed (process_replies ?x) = _ =>
                destruct (process_replies_frame x) as (_ & _ & H3 & _)
              end;
              cbn in H3; congruence.
          + injection Hs as <-. congruence. }
      exists e, data. split; [left; reflexivity|exact H].
    + destruct (IH c1 c' Hrun Hc1 Hc') as (e & data & Hin & H).
      exists e, data. split; [right; exact Hin|exact H].
Qed.

End ConnectionReads.

(** ** Pipelines, numbers and the listener *)

Section Pipelines.

Import tcp_connection.

(** X10. A pipeline of requests, each of one or more well-formed lines, is
    answered request by request: one reply each, in the order of the
    requests, each echoing the X-Request of its own request (0 when it has
    none) and numbered one above the reply before; the connection ends at a
    boundary, ready for the next request. *)
Theorem pipelined_requests_are_answered_in_order :
  forall (c : t) (reqs : list (list line)),
    at_boundary c ->
    forallb (fun ls => nonempty_lines ls && forallb line_ok ls)%bool reqs = true ->
    let c' := feed_bytes c (concat (map request_bytes reqs)) in
    wire c' ++ pending c'
    = wire c ++ pending c
      ++ numbered (m_instance c) (m_reply c)
                  (map (fun ls => lines_request ls 0) reqs) /\
    at_boundary c'.
Proof.
  intros c reqs Hb Hok c'.
  destruct (feed_requests reqs c Hb Hok) as (H1 & H2 & _).
  unfold history in H1. rewrite <- app_assoc in H1. split; assumption.
Qed.

Lemma isdigit_not_eol (c : ascii) : isdigit c = true -> negb (is_eol c) = true.
Proof.
  unfold isdigit, is_eol. intros H.
  apply andb_true_iff in H. destruct H as [H1 _]. apply Nat.leb_le in H1.
  apply negb_true_iff, orb_false_iff. split.
  - destruct (Ascii.eqb_spec c CR); [|reflexivity].
    subst. change (nat_of_ascii CR) with 13%nat in H1. lia.
  - destruct (Ascii.eqb_spec c LF); [|reflexivity].
    subst. change (nat_of_ascii LF) with 10%nat in H1. lia.
Qed.

Lemma digits_no_eol (D : bytes) :
  Forall (fun c => isdigit c = true) D -> no_eol D = true.
Proof.
  induction 1 as [|c D Hc _ IH]; [reflexivity|].
  unfold no_eol in *. cbn [forallb]. now rewrite (isdigit_not_eol c Hc), IH.
Qed.

(** What [%lu] prints for a number below 10^20: digits that read back as
    the number. *)
Lemma print_ulong_digits (n : Z) :
  0 <= n < 10 ^ 20 ->
  print_ulong n <> [] /\
  Forall (fun c => isdigit c = true) (print_ulong n) /\
  forall rest a any,
    read_digits (print_ulong n ++ rest) a any
    = read_digits rest (a * 10 ^ Z.of_nat (length (print_ulong n)) + n) true.
Proof.
  intros Hn. unfold print_ulong.
  destruct (digits_of_read 19 n [] Hn) as (D & HD & Hne & Hall & Hread).
  rewrite HD, app_nil_r. auto.
Qed.

Lemma print_ulong_no_eol (n : Z) :
  0 <= n < 10 ^ 20 -> no_eol (print_ulong n) = true.
Proof. intros Hn. apply digits_no_eol. now apply print_ulong_digits. Qed.

Lemma print_int_no_eol (z : Z) :
  - 10 ^ 20 < z < 10 ^ 20 -> no_eol (print_int z) = true.
Proof.
  intros Hz. unfold print_int. destruct (z <? 0) eqn:E.
  - apply Z.ltb_lt in E. unfold no_eol. cbn [forallb].
    change (negb (is_eol "-")) with true. cbn [andb].
    apply (print_ulong_no_eol (- z)). lia.
  - apply Z.ltb_ge in E. apply (print_ulong_no_eol z). lia.
Qed.

Lemma strtoul_numeric_prefix (n : Z) (rest : bytes) :
  0 <= n < 10 ^ 20 -> starts_with_digit rest = false ->
  strtoul (print_ulong n ++ rest) = Z.min n ULONG_MAX.
Proof.
  intros Hn Hrest.
  destruct (print_ulong_digits n Hn) as (Hne & Hall & Hread).
  destruct (print_ulong n) as [|c D] eqn:E; [contradiction|].
  inversion Hall as [|? ? Hc _]; subst.
  destruct (isdigit_not_space_or_sign c Hc) as (Hs & Hm & Hp).
  unfold strtoul. cbn [app skip_space]. rewrite Hs, Hm, Hp.
  change (c :: D ++ rest) with ((c :: D) ++ rest). rewrite Hread.
  assert (Hr : read_digits rest (0 * 10 ^ Z.of_nat (length (c :: D)) + n) true
               = (n, true)).
  { rewrite Z.mul_0_l, Z.add_0_l. destruct rest as [|x rest]; [reflexivity|].
    cbn in Hrest. cbn [read_digits]. now rewrite Hrest. }
  rewrite Hr. cbn [negb]. unfold ULONG_MAX.
  destruct (18446744073709551615 <? n) eqn:E'.
  - apply Z.ltb_lt in E'. lia.
  - apply Z.ltb_ge in E'. lia.
Qed.

(** X20. A value that starts with a decimal number is read as that number,
    whatever follows the digits, and a number that does not fit an
    [unsigned long] is read as [ULONG_MAX]: that is what an X-Sleep or
    X-Request line stores. *)
Theorem numeric_prefix_is_stored_saturated :
  forall (c : t) (n : Z) (rest : bytes),
    at_line_start c -> 0 <= n < 10 ^ 20 ->
    no_eol rest = true -> starts_with_digit rest = false ->
    m_sleep (feed_bytes c (line_bytes (Field (lit "X-Sleep") (print_ulong n ++ rest))))
    = Z.min n ULONG_MAX /\
    m_request (feed_bytes c (line_bytes (Field (lit "X-Request") (print_ulong n ++ rest))))
    = Z.min n ULONG_MAX.
Proof.
  intros c n rest Hc Hn Hrest Hd.
  assert (Hv : no_eol (print_ulong n ++ rest) = true).
  { unfold no_eol in *. rewrite forallb_app, Hrest.
    pose proof (print_ulong_no_eol n Hn) as H. unfold no_eol in H. now rewrite H. }
  split.
  - rewrite feed_line; [|exact Hc|simpl; now rewrite Hv].
    cbn. now apply strtoul_numeric_prefix.
  - rewrite feed_line; [|exact Hc|simpl; now rewrite Hv].
    cbn. now apply strtoul_numeric_prefix.
Qed.

Lemma accept_loop_nth (errors : list error_code) :
  forall (srv : tcp_server.t) (i : nat) (e : error_code),
    tcp_server.new_connection srv = create (tcp_server.m_count srv) ->
    nth_error errors i = Some e ->
    nth_error (fst (accept_loop srv errors)) i
    = Some (if negb (failed e)
            then Some (start (accept (create (count_up (tcp_server.m_count srv) i))))
            else None).
Proof.
  induction errors as [|e0 errors IH]; intros srv i e Hinv Hi.
  - destruct i; discriminate.
  - cbn [accept_loop]. unfold tcp_server.handle_accept.
    destruct (accept_loop
                (tcp_server.start_accept (tcp_server.m_acceptor_port srv)
                                         (tcp_server.m_count srv)) errors)
      as [conns srv'] eqn:E.
    cbn [fst]. destruct i as [|i].
    + cbn in Hi. injection Hi as ->. cbn [nth_error count_up]. now rewrite Hinv.
    + cbn [nth_error] in Hi |- *.
      specialize (IH (tcp_server.start_accept (tcp_server.m_acceptor_port srv)
                                              (tcp_server.m_count srv))
                     i e eq_refl Hi).
      rewrite E in IH. exact IH.
Qed.

(** X21. The listener numbers its connections in the order of its accepts,
    failed ones included: the connection the [i]-th accept (from 0) hands
    out, when that accept succeeds, is a started connection with the
    identifier [i + 1], and a failed accept hands out none. *)
Theorem connections_are_numbered_by_accept :
  forall (argv : list bytes) (errors : list error_code) (i : nat) (e : error_code),
    nth_error errors i = Some e -> Z.of_nat i < INT_MAX ->
    nth_error (fst (accept_loop (main argv) errors)) i
    = Some (if negb (failed e)
            then Some (start (accept (create (Z.of_nat i + 1))))
            else None).
Proof.
  intros argv errors i e Hi Hlt.
  rewrite (accept_loop_nth errors (main argv) i e eq_refl Hi).
  change (tcp_server.m_count (main argv)) with (int_wrap 1).
  rewrite count_up_wrap, int_wrap_small by (unfold INT_MIN, INT_MAX in *; lia).
  now rewrite Z.add_comm.
Qed.

End Pipelines.

(** ** The reply as a message *)

Section ReplyMessage.

Import tcp_connection.

(** X22. The header block of a reply is a message in the grammar the server
    itself reads: a status line and six [KEY: VALUE] lines, ended by one
    empty line and followed by the body. Read by the parsers of a
    connection, it holds exactly one boundary, at its end, and its
    X-Request value is read back as the number that was printed. *)
Theorem reply_header_block_is_well_formed :
  forall (c : t) (inst req rep : Z),
    at_boundary c ->
    INT_MIN <= inst <= INT_MAX -> INT_MIN <= rep <= INT_MAX ->
    0 <= req <= ULONG_MAX ->
    let body :=
      lit "<html><body>" ++ body_text rep inst req ++ lit "</body></html>" ++ [LF] in
    let head_lines := reply_head_lines (Z.of_nat (length body)) inst req rep in
    reply_text inst req rep = request_bytes head_lines ++ body /\
    forallb line_ok head_lines = true /\
    let c' := feed_bytes c (request_bytes head_lines) in
    wire c' ++ pending c'
    = wire c ++ pending c
      ++ [reply_text (m_instance c) req (int_wrap (m_reply c + 1))] /\
    at_boundary c'.
Proof.
  intros c inst req rep Hb Hinst Hrep Hreq body head_lines.
  unfold INT_MIN, INT_MAX, ULONG_MAX in *.
  pose proof (body_text_length rep inst req) as Hbt.
  assert (Hlen : length body = (length (body_text rep inst req) + 27)%nat).
  { subst body. rewrite !length_app. simpl. lia. }
  assert (Hcl : no_eol (print_ulong (Z.of_nat (length body))) = true)
    by (apply print_ulong_no_eol; lia).
  assert (Hi : no_eol (print_int inst) = true) by (apply print_int_no_eol; lia).
  assert (Hr : no_eol (print_int rep) = true) by (apply print_int_no_eol; lia).
  assert (Hq : no_eol (print_ulong req) = true) by (apply print_ulong_no_eol; lia).
  assert (Hok : forallb line_ok head_lines = true).
  { subst head_lines. unfold reply_head_lines. cbn [forallb line_ok].
    rewrite Hcl, Hi, Hr, Hq. reflexivity. }
  split; [|split; [exact Hok|]].
  - rewrite reply_text_unfold.
    replace (ulong_wrap (Z.of_nat (length (body_text rep inst req)) + 27))
      with (Z.of_nat (length body))
      by (rewrite Hlen; unfold ulong_wrap; rewrite Z.mod_small; lia).
    subst head_lines. unfold request_bytes, reply_head_lines.
    cbn [map concat line_bytes]. fold body.
    rewrite <- !app_assoc. reflexivity.
  - cbv zeta.
    rewrite (feed_request c head_lines (at_boundary_line_start c Hb) Hok)
      by discriminate.
    destruct Hb as (_ & _ & Hs & Hrq). rewrite Hs, Hrq.
    assert (Eq : lines_request head_lines 0 = req).
    { subst head_lines. unfold reply_head_lines, lines_request.
      cbn [fold_left line_request].
      change (bytes_eqb (lit "Keep-Alive") (lit "X-Sleep")) with false.
      change (bytes_eqb (lit "Keep-Alive") (lit "X-Request")) with false.
      change (bytes_eqb (lit "Content-Length") (lit "X-Sleep")) with false.
      change (bytes_eqb (lit "Content-Length") (lit "X-Request")) with false.
      change (bytes_eqb (lit "Content-Type") (lit "X-Sleep")) with false.
      change (bytes_eqb (lit "Content-Type") (lit "X-Request")) with false.
      change (bytes_eqb (lit "X-Connection") (lit "X-Sleep")) with false.
      change (bytes_eqb (lit "X-Connection") (lit "X-Request")) with false.
      change (bytes_eqb (lit "X-Request") (lit "X-Sleep")) with false.
      change (bytes_eqb (lit "X-Request") (lit "X-Request")) with true.
      change (bytes_eqb (lit "X-Reply") (lit "X-Sleep")) with false.
      change (bytes_eqb (lit "X-Reply") (lit "X-Request")) with false.
      cbv iota. apply strtoul_print_ulong. unfold ULONG_MAX. lia. }
    rewrite Eq.
    destruct (answered_effect c (lines_sleep head_lines 0) req) as (H1 & H2 & _).
    unfold history in H1. rewrite <- app_assoc in H1. split; assumption.
Qed.

End ReplyMessage.

(** * Properties of the driver *)

Section Driver.

Import tcp_connection.

Lemma lines_unaffected (ls : list line) (sl rq : Z) :
  no_control_header ls = true ->
  lines_sleep ls sl = sl /\ lines_request ls rq = rq.
Proof.
  revert sl rq. induction ls as [|l ls IH]; intros sl rq H; [auto|].
  apply forallb_cons_true in H. destruct H as [Hl Hls].
  apply andb_true_iff in Hl. destruct Hl as [H1 H2].
  apply negb_true_iff in H1, H2.
  unfold lines_sleep, lines_request in *. cbn [fold_left].
  destruct l as [k v| |]; cbn [line_sleep line_request has_key] in *;
    rewrite ?H1, ?H2; apply IH; exact Hls.
Qed.

Lemma request_with_extra_lines (c : t) (before extra after : list line) :
  at_boundary c ->
  forallb line_ok (before ++ after) = true -> forallb line_ok extra = true ->
  extra <> [] ->
  no_control_header before = true -> no_control_header after = true ->
  feed_bytes c (concat (map line_bytes before) ++ concat (map line_bytes extra)
                ++ concat (map line_bytes after) ++ CRLF)
  = answered c (lines_sleep extra 0) (lines_request extra 0).
Proof.
  intros Hb Hok Hex Hne Hb0 Ha0.
  rewrite forallb_app in Hok. apply andb_true_iff in Hok. destruct Hok as [Ok1 Ok2].
  assert (Hall : forallb line_ok (before ++ extra ++ after) = true)
    by (rewrite !forallb_app, Ok1, Hex, Ok2; reflexivity).
  replace (concat (map line_bytes before) ++ concat (map line_bytes extra)
           ++ concat (map line_bytes after) ++ CRLF)
    with (request_bytes (before ++ extra ++ after)).
  2:{ unfold request_bytes. rewrite !map_app, !concat_app, <- !app_assoc.
      reflexivity. }
  rewrite (feed_request c _ (at_boundary_line_start c Hb) Hall).
  2:{ destruct before; [destruct extra; [contradiction|discriminate]|discriminate]. }
  destruct Hb as (_ & _ & Hs & Hr). rewrite Hs, Hr.
  rewrite !lines_sleep_app, !lines_request_app.
  destruct (lines_unaffected before 0 0 Hb0) as [-> ->].
  destruct (lines_unaffected after (lines_sleep extra 0) (lines_request extra 0) Ha0)
    as [-> ->].
  reflexivity.
Qed.

(** X23. What the driver asks is what the server does: a request that
    carries the custom headers the driver builds for request [i], among
    lines that are no X-Sleep or X-Request header, is answered with one
    reply that echoes [i] as X-Request and is delayed by the milliseconds
    the driver chose (none for request 0, 1100 for request 1, 100 for the
    others). The X-Disconnect header of request 7 has no effect. *)
Theorem driver_headers_are_served :
  forall (c : t) (before after : list line) (i : Z),
    at_boundary c -> 0 <= i < driver.NRREQUESTS ->
    forallb line_ok (before ++ after) = true ->
    no_control_header before = true -> no_control_header after = true ->
    let c' := feed_bytes c (driver_request before after i) in
    c' = answered c (driver_delay i) i /\
    wire c' ++ pending c'
    = wire c ++ pending c
      ++ [reply_text (m_instance c) i (int_wrap (m_reply c + 1))].
Proof.
  intros c before after i Hb Hi Hok Hb0 Ha0 c'.
  assert (Hc' : c' = answered c (driver_delay i) i).
  { subst c'. unfold driver_request, driver.NRREQUESTS in *.
    assert (E : i = 0 \/ i = 1 \/ i = 2 \/ i = 3 \/ i = 4 \/
                i = 5 \/ i = 6 \/ i = 7 \/ i = 8 \/ i = 9) by lia.
    repeat (destruct E as [-> | E]);
      [ change (concat (map (fun h => h ++ CRLF) (driver.headers 0)))
          with (concat (map line_bytes [Field (lit "X-Request") (lit "0")]))
      | change (concat (map (fun h => h ++ CRLF) (driver.headers 1)))
          with (concat (map line_bytes [Field (lit "X-Sleep") (lit "1100");
                                        Field (lit "X-Request") (lit "1")]))
      | change (concat (map (fun h => h ++ CRLF) (driver.headers 2)))
          with (concat (map line_bytes [Field (lit "X-Sleep") (lit "100");
                                        Field (lit "X-Request") (lit "2")]))
      | change (concat (map (fun h => h ++ CRLF) (driver.headers 3)))
          with (concat (map line_bytes [Field (lit "X-Sleep") (lit "100");
                                        Field (lit "X-Request") (lit "3")]))
      | change (concat (map (fun h => h ++ CRLF) (driver.headers 4)))
          with (concat (map line_bytes [Field (lit "X-Sleep") (lit "100");
                                        Field (lit "X-Request") (lit "4")]))
      | change (concat (map (fun h => h ++ CRLF) (driver.headers 5)))
          with (concat (map line_bytes [Field (lit "X-Sleep") (lit "100");
                                        Field (lit "X-Request") (lit "5")]))
      | change (concat (map (fun h => h ++ CRLF) (driver.headers 6)))
          with (concat (map line_bytes [Field (lit "X-Sleep") (lit "100");
                                        Field (lit "X-Request") (lit "6")]))
      | change (concat (map (fun h => h ++ CRLF) (driver.headers 7)))
          with (concat (map line_bytes [Field (lit "X-Sleep") (lit "100");
                                        Field (lit "X-Request") (lit "7");
                                        Field (lit "X-Disconnect") (lit "yes")]))
      | change (concat (map (fun h => h ++ CRLF) (driver.headers 8)))
          with (concat (map line_bytes [Field (lit "X-Sleep") (lit "100");
                                        Field (lit "X-Request") (lit "8")]))
      | subst i;
        change (concat (map (fun h => h ++ CRLF) (driver.headers 9)))
          with (concat (map line_bytes [Field (lit "X-Sleep") (lit "100");
                                        Field (lit "X-Request") (lit "9")])) ];
      (match goal with
       | |- feed_bytes c (_ ++ concat (map line_bytes ?L) ++ _) = _ =>
           rewrite (request_with_extra_lines c before L after Hb Hok eq_refl
                      ltac:(discriminate) Hb0 Ha0)
       end; reflexivity). }
  split; [exact Hc'|].
  destruct (answered_effect c (driver_delay i) i) as (H1 & _).
  rewrite <- Hc' in H1. unfold history in H1. now rewrite <- app_assoc in H1.
Qed.

Lemma refill_loop_spec (fuel : nat) :
  forall (n : Z) (st : driver.progress),
    driver.PIPELEN - n <= Z.of_nat fuel -> INT_MIN <= n ->
    0 <= driver.added st -> 0 <= driver.running st <= driver.added st ->
    let k := Z.min (Z.max 0 (driver.PIPELEN - n))
                   (Z.max 0 (driver.NRREQUESTS - driver.added st)) in
    let st' := driver.refill_loop fuel n st in
    driver.added st' = driver.added st + k /\
    driver.running st' = driver.running st + k /\
    driver.pipeline st'
    = driver.pipeline st
      ++ map (fun j => driver.added st + Z.of_nat j) (seq 0 (Z.to_nat k)).
Proof.
  unfold driver.PIPELEN, driver.NRREQUESTS.
  induction fuel as [|fuel IH]; intros n st Hf Hn Ha Hr;
    set (k := Z.min (Z.max 0 (4 - n)) (Z.max 0 (10 - driver.added st))).
  - subst k. cbn [driver.refill_loop].
    replace (Z.min (Z.max 0 (4 - n)) (Z.max 0 (10 - driver.added st))) with 0 by lia.
    cbn. rewrite app_nil_r. repeat split; lia.
  - cbn [driver.refill_loop].
    unfold driver.PIPELEN, driver.NRREQUESTS.
    destruct (n <? 4) eqn:E1; cbn [andb].
    + apply Z.ltb_lt in E1.
      destruct (driver.added st <? 10) eqn:E2.
      * apply Z.ltb_lt in E2.
        assert (Wn : int_wrap (n + 1) = n + 1)
          by (apply int_wrap_small; unfold INT_MIN, INT_MAX in *; lia).
        assert (Wa : int_wrap (driver.added st + 1) = driver.added st + 1)
          by (apply int_wrap_small; unfold INT_MIN, INT_MAX; lia).
        assert (Wr : int_wrap (driver.running st + 1) = driver.running st + 1)
          by (apply int_wrap_small; unfold INT_MIN, INT_MAX; lia).
        rewrite Wn.
        destruct (IH (n + 1) (driver.add_next_handle st)) as (I1 & I2 & I3);
          try (unfold driver.add_next_handle;
               cbn [driver.added driver.running]; rewrite ?Wa, ?Wr; lia).
        unfold driver.add_next_handle in I1, I2, I3 |- *.
        cbn [driver.added driver.running driver.pipeline] in I1, I2, I3 |- *.
        rewrite ?Wa, ?Wr in I1, I2, I3 |- *.
        set (k' := Z.min (Z.max 0 (4 - (n + 1)))
                         (Z.max 0 (10 - (driver.added st + 1)))) in *.
        assert (Hk : k = k' + 1) by (subst k k'; lia).
        assert (Hk' : 0 <= k') by (subst k'; lia).
        rewrite Hk. split; [lia|]. split; [lia|].
        rewrite I3, <- app_assoc. f_equal.
        replace (Z.to_nat (k' + 1)) with (S (Z.to_nat k')) by lia.
        cbn [seq map app]. rewrite Z.add_0_r. f_equal.
        rewrite <- seq_shift, map_map. apply map_ext. intros j. lia.
      * apply Z.ltb_ge in E2. subst k.
        replace (Z.min (Z.max 0 (4 - n)) (Z.max 0 (10 - driver.added st)))
          with 0 by lia.
        cbn. rewrite app_nil_r. repeat split; lia.
    + apply Z.ltb_ge in E1. subst k.
      replace (Z.min (Z.max 0 (4 - n)) (Z.max 0 (10 - driver.added st)))
        with 0 by lia.
      cbn. rewrite app_nil_r. repeat split; lia.
Qed.

(** X24. Refilling the pipeline adds the requests still to send, in their
    order and each once, until [PIPELEN] are in flight or none is left: with
    [still_running] in flight, [k] handles are added, [k] being the smaller
    of the free places and the requests left; [added] and [running] grow by
    [k], and the loop has ended by itself. *)
Theorem refill_tops_up_the_pipeline :
  forall (still_running : Z) (st : driver.progress),
    INT_MIN <= still_running ->
    0 <= driver.added st -> 0 <= driver.running st <= driver.added st ->
    let k := Z.min (Z.max 0 (driver.PIPELEN - still_running))
                   (Z.max 0 (driver.NRREQUESTS - driver.added st)) in
    let st' := driver.refill still_running st in
    driver.added st' = driver.added st + k /\
    driver.running st' = driver.running st + k /\
    driver.pipeline st'
    = driver.pipeline st
      ++ map (fun j => driver.added st + Z.of_nat j) (seq 0 (Z.to_nat k)) /\
    (driver.PIPELEN <= still_running + k \/
     driver.NRREQUESTS <= driver.added st').
Proof.
  intros sr st Hsr Ha Hr k st'.
  destruct (refill_loop_spec (Z.to_nat (driver.PIPELEN - sr)) sr st)
    as (H1 & H2 & H3); try assumption; [lia|].
  fold k in H1, H2, H3. fold (driver.refill sr st) in H1, H2, H3. fold st' in H1, H2, H3.
  repeat split; try assumption.
  rewrite H1. unfold driver.PIPELEN, driver.NRREQUESTS in *. subst k. lia.
Qed.

(** X25. The time [select] may sleep: exactly the [curl_timeo] milliseconds
    when that is below two seconds, and one second when it is two seconds
    or more or when there is none (a negative value); the microseconds are
    always a valid count below one million. *)
Theorem select_timeout_is_capped :
  forall curl_timeo : Z,
    let '(tv_sec, tv_usec) := driver.select_timeout curl_timeo in
    0 <= tv_sec <= 1 /\ 0 <= tv_usec < 1000000 /\
    tv_sec * 1000000 + tv_usec
    = if (0 <=? curl_timeo) && (curl_timeo <? 2000) then curl_timeo * 1000
      else 1000000.
Proof.
  intros t. unfold driver.select_timeout.
  destruct (0 <=? t) eqn:E0; cbn [andb].
  - apply Z.leb_le in E0.
    rewrite Z.quot_div_nonneg, Z.rem_mod_nonneg by lia.
    pose proof (Z.div_mod t 1000 ltac:(lia)) as Hd.
    pose proof (Z.mod_pos_bound t 1000 ltac:(lia)) as Hm.
    destruct (1 <? t / 1000) eqn:E1.
    + apply Z.ltb_lt in E1.
      destruct (t <? 2000) eqn:E2; [apply Z.ltb_lt in E2; lia|]. lia.
    + apply Z.ltb_ge in E1.
      assert (0 <= t / 1000) by (apply Z.div_pos; lia).
      destruct (t <? 2000) eqn:E2.
      * lia.
      * apply Z.ltb_ge in E2. lia.
  - lia.
Qed.

End Driver.

(** * The further properties at work *)

Section FurtherExamples.

Import tcp_connection.

Lemma matcher_reports_only_real_boundaries_witness :
  exists pre, lit "GET /" ++ CRLF ++ CRLF = pre ++ CRLF ++ CRLF.
Proof.
  apply (matcher_reports_only_real_boundaries
           (CRLF ++ CRLF) (lit "GET /" ++ CRLF ++ CRLF)).
  reflexivity.
Defined.

Lemma matcher_recognises_its_target_witness :
  parser.matched (parser.feed_all (parser.create (CRLF ++ CRLF)) (CRLF ++ CRLF))
  = true.
Proof.
  apply (matcher_recognises_its_target (parser.create (CRLF ++ CRLF))).
  - reflexivity.
  - discriminate.
Defined.

Lemma extractor_returns_key_and_value_witness :
  header.key (header.feed_all header.create
                (lit "X-Sleep" ++ lit ": " ++ lit "500" ++ CRLF))
  = lit "X-Sleep".
Proof.
  apply (extractor_returns_key_and_value header.create (lit "X-Sleep") (lit "500")).
  - left. reflexivity.
  - reflexivity.
Defined.

Lemma line_without_colon_gives_no_pair_witness :
  header.feed_all header.create (lit "Bad-Header-No-Colon-Space" ++ CRLF)
  = header.create.
Proof.
  apply (line_without_colon_gives_no_pair header.create
           (lit "Bad-Header-No-Colon-Space")).
  - left. reflexivity.
  - reflexivity.
Defined.

Lemma stray_cr_in_value_spoils_the_line_witness :
  header.feed_all header.create
    (lit "X-Sleep" ++ lit ": " ++ lit "5" ++ [CR] ++ "0"%char :: lit "0" ++ [LF])
  = header.create.
Proof.
  apply (stray_cr_in_value_spoils_the_line header.create
           (lit "X-Sleep") (lit "5") (lit "0") "0"%char).
  - left. reflexivity.
  - reflexivity.
  - reflexivity.
  - reflexivity.
Defined.

Lemma leading_colon_belongs_to_the_key_witness :
  header.feed_all header.create (lit ":" ++ lit "odd" ++ lit ": " ++ lit "1" ++ CRLF)
  = header.mk (lit ":" ++ lit "odd") (lit "1") header.s_matched false.
Proof.
  apply (leading_colon_belongs_to_the_key header.create (lit "odd") (lit "1")).
  - left. reflexivity.
  - reflexivity.
  - reflexivity.
  - reflexivity.
Defined.

Lemma matcher_cursor_stays_inside_witness :
  exists c,
    run (start (accept (create 1))) example_events = Some c /\
    exists n, (n < 4)%nat /\ m_eom c = eom_at n.
Proof.
  eexists. split; [vm_compute; reflexivity|].
  apply (matcher_cursor_stays_inside 1 example_events).
  vm_compute. reflexivity.
Defined.

Lemma other_headers_are_ignored_witness :
  feed_bytes example_conn (line_bytes (Field (lit "x-sleep") (lit "500")))
  = set_parsers example_conn (eom_at 2)
      (header.mk (lit "x-sleep") (lit "500") header.s_matched false).
Proof.
  apply (other_headers_are_ignored example_conn (lit "x-sleep") (lit "500")).
  - split; [exists 0%nat; split; [lia|reflexivity]|left; reflexivity].
  - reflexivity.
  - discriminate.
  - discriminate.
Defined.

Lemma pipelined_requests_are_answered_in_order_witness :
  at_boundary
    (feed_bytes example_conn
       (concat (map request_bytes
                    [example_request "0" "1"; example_request "1000" "2";
                     example_request "0" "3"]))).
Proof.
  apply (pipelined_requests_are_answered_in_order example_conn
           [example_request "0" "1"; example_request "1000" "2";
            example_request "0" "3"]).
  - repeat split.
  - reflexivity.
Defined.

Lemma delayed_reply_is_queued_asleep_witness :
  exists n,
    m_reply_queue (feed_bytes example_conn (request_bytes (example_request "1000" "2")))
    = skipn n (m_reply_queue example_conn)
      ++ [Reply.mk (reply_text (m_instance example_conn)
                      (lines_request (example_request "1000" "2") 0)
                      (int_wrap (m_reply example_conn + 1)))
                   (lines_sleep (example_request "1000" "2") 0)] /\
    wire (feed_bytes example_conn (request_bytes (example_request "1000" "2")))
    = wire example_conn ++ map Reply.str (firstn n (m_reply_queue example_conn)).
Proof.
  apply (delayed_reply_is_queued_asleep example_conn (example_request "1000" "2")).
  - repeat split.
  - reflexivity.
  - discriminate.
  - reflexivity.
Defined.

Lemma undelayed_reply_is_written_at_once_witness :
  m_reply_queue (feed_bytes example_conn (request_bytes (example_request "0" "1")))
  = [].
Proof.
  apply (undelayed_reply_is_written_at_once example_conn (example_request "0" "1")).
  - repeat split.
  - reflexivity.
  - discriminate.
  - reflexivity.
  - reflexivity.
  - reflexivity.
Defined.

Lemma reply_waits_behind_sleeping_front_witness :
  wire (feed_bytes example_blocked (request_bytes (example_request "0" "4")))
  = wire example_blocked.
Proof.
  apply (reply_waits_behind_sleeping_front example_blocked
           (example_request "0" "4") example_front example_behind).
  - repeat split; vm_compute; reflexivity.
  - reflexivity.
  - discriminate.
  - vm_compute. reflexivity.
  - vm_compute. reflexivity.
Defined.

Lemma front_timer_releases_the_awake_run_witness :
  exists c' n,
    timed_out example_blocked 0 success = Some c' /\
    wire c' = wire example_blocked
              ++ Reply.str example_front
                 :: map Reply.str (firstn n example_behind) /\
    m_reply_queue c' = skipn n example_behind /\
    forallb (fun x => negb (Reply.is_sleeping x)) (firstn n example_behind) = true /\
    match skipn n example_behind with
    | [] => True
    | x :: _ => Reply.is_sleeping x = true
    end.
Proof.
  apply (front_timer_releases_the_awake_run example_blocked
           example_front example_behind); vm_compute; reflexivity.
Defined.

Lemma timer_behind_sleeping_front_writes_nothing_witness :
  exists c',
    timed_out example_two_asleep 1 success = Some c' /\
    wire c' = wire example_two_asleep.
Proof.
  destruct (timer_behind_sleeping_front_writes_nothing example_two_asleep
              (hd (Reply.create []) (m_reply_queue example_two_asleep))
              (hd (Reply.create []) (tl (m_reply_queue example_two_asleep)))
              (tl (m_reply_queue example_two_asleep)) 0)
    as (c' & H1 & H2 & _); try (vm_compute; reflexivity).
  exists c'. split; assumption.
Defined.

Lemma reads_may_be_split_anywhere_witness :
  run example_conn
      (map (ReadDone success) [firstn 10 example_stream; skipn 10 example_stream])
  = run example_conn
      [ReadDone success (concat [firstn 10 example_stream; skipn 10 example_stream])].
Proof.
  apply (reads_may_be_split_anywhere example_conn
           [firstn 10 example_stream; skipn 10 example_stream]).
  - reflexivity.
  - discriminate.
Defined.

Lemma reading_goes_on_while_reads_succeed_witness :
  socket.reading (m_socket (handle_read example_conn 104 [])) = false.
Proof.
  apply (proj1 (proj2 reading_goes_on_while_reads_succeed) example_conn 104 []).
  unfold success. lia.
Defined.

Lemma closed_connection_stays_closed_and_silent_witness :
  exists c',
    run example_closed [TimerDone 0 operation_aborted; WriteDone success 5] = Some c' /\
    m_closed c' = true /\ wire c' = wire example_closed.
Proof.
  eexists. split; [vm_compute; reflexivity|].
  apply (closed_connection_stays_closed_and_silent example_closed
           [TimerDone 0 operation_aborted; WriteDone success 5]);
    vm_compute; reflexivity.
Defined.

Lemma only_a_failed_read_closes_witness :
  exists e data,
    In (ReadDone e data) [ReadDone success example_stream; ReadDone 104 []] /\
    e <> success /\ e <> operation_aborted.
Proof.
  eapply (only_a_failed_read_closes
            [ReadDone success example_stream; ReadDone 104 []] example_conn);
    vm_compute; reflexivity.
Defined.

Lemma numeric_prefix_is_stored_saturated_witness :
  m_sleep (feed_bytes example_conn
             (line_bytes (Field (lit "X-Sleep") (print_ulong 12 ++ lit "abc"))))
  = Z.min 12 ULONG_MAX.
Proof.
  apply (numeric_prefix_is_stored_saturated example_conn 12 (lit "abc")).
  - split; [exists 0%nat; split; [lia|reflexivity]|left; reflexivity].
  - split; [lia|reflexivity].
  - reflexivity.
  - reflexivity.
Defined.

Lemma connections_are_numbered_by_accept_witness :
  nth_error (fst (accept_loop (main []) [success; 103; success])) 2
  = Some (if negb (failed success)
          then Some (start (accept (create (Z.of_nat 2 + 1))))
          else None).
Proof.
  apply (connections_are_numbered_by_accept [] [success; 103; success] 2%nat success).
  - reflexivity.
  - reflexivity.
Defined.

Lemma reply_header_block_is_well_formed_witness :
  forallb line_ok
    (reply_head_lines
       (Z.of_nat (length (lit "<html><body>" ++ body_text 2 1 2
                          ++ lit "</body></html>" ++ [LF])))
       1 2 2)
  = true.
Proof.
  apply (reply_header_block_is_well_formed example_conn 1 2 2).
  - repeat split.
  - unfold INT_MIN, INT_MAX. lia.
  - unfold INT_MIN, INT_MAX. lia.
  - unfold ULONG_MAX. lia.
Defined.

Lemma driver_headers_are_served_witness :
  feed_bytes example_conn (driver_request example_library_lines [] 7)
  = answered example_conn (driver_delay 7) 7.
Proof.
  apply (driver_headers_are_served example_conn example_library_lines [] 7).
  - repeat split.
  - unfold driver.NRREQUESTS. lia.
  - reflexivity.
  - reflexivity.
  - reflexivity.
Defined.

Lemma refill_tops_up_the_pipeline_witness :
  driver.added (driver.refill 2 example_progress)
  = driver.added example_progress
    + Z.min (Z.max 0 (driver.PIPELEN - 2))
            (Z.max 0 (driver.NRREQUESTS - driver.added example_progress)).
Proof.
  apply (refill_tops_up_the_pipeline 2 example_progress).
  - unfold INT_MIN. lia.
  - simpl. lia.
  - simpl. lia.
Defined.

End FurtherExamples.
